(** * Severity classification of 5G gNB/OAI log bundles

    A shallow embedding of the rule engine of [analyze_logs.py]
    ([LogAnalyzer]) and [classify_and_organize.py] ([LogClassifier]): the
    four pattern lists, [check_patterns] and [classify_severity], which the
    two files hold in identical copies, and the per-file wrapper
    [analyze_file] of [analyze_logs.py].

    Python values are modelled as follows.
    - A [str] is a list of Unicode code points ([text]).  String literals of
      the source are written as UTF-8 Rocq strings and decoded by [U].
    - A [dict] is an association list in insertion order ([dict]); the corpus
      is built by iterating [items()], so the order is observable.  The keys
      of a [dict] are distinct; no statement below needs it.
    - A stream's content is a [str] or a list of [str] ([log_content]).
    - An exception is a value of [exception]; code that may raise returns a
      [result].
    - The confidence literals (0.95, 0.90, ...) are the decimal constants they
      denote, in [Q].
    - [re.search] and [re.findall] are a backtracking matcher over the
      fragment of the regular-expression syntax the program uses; patterns
      are kept as the source strings and compiled by [re_compile].  The
      Unicode table of decimal digits behind [\d] is a parameter. *)

From Stdlib Require Import String Ascii DecimalString.
From Stdlib Require Import List NArith ZArith QArith Bool Lia Permutation.
Import ListNotations.

(** ** Text *)

Definition text := list N.

Definition NL : N := 10.

(** Decoding of the UTF-8 bytes of a literal into code points. *)
Fixpoint utf8_decode (bs : list N) : text :=
  match bs with
  | [] => []
  | b0 :: t0 =>
    if (b0 <? 128)%N then b0 :: utf8_decode t0
    else
      match t0 with
      | [] => []
      | b1 :: t1 =>
        if (b0 <? 224)%N then ((b0 - 192) * 64 + (b1 - 128))%N :: utf8_decode t1
        else
          match t1 with
          | [] => []
          | b2 :: t2 =>
            if (b0 <? 240)%N
            then ((b0 - 224) * 4096 + (b1 - 128) * 64 + (b2 - 128))%N
                   :: utf8_decode t2
            else
              match t2 with
              | [] => []
              | b3 :: t3 =>
                ((b0 - 240) * 262144 + (b1 - 128) * 4096
                 + (b2 - 128) * 64 + (b3 - 128))%N :: utf8_decode t3
              end
          end
      end
  end.

Definition U (s : string) : text :=
  utf8_decode (map N_of_ascii (list_ascii_of_string s)).

Fixpoint text_eqb (a b : text) : bool :=
  match a, b with
  | [], [] => true
  | x :: a', y :: b' => (x =? y)%N && text_eqb a' b'
  | _, _ => false
  end.

(** [s.startswith(p)] *)
Fixpoint starts_with (p s : text) : bool :=
  match p, s with
  | [], _ => true
  | x :: p', y :: s' => (x =? y)%N && starts_with p' s'
  | _ :: _, [] => false
  end.

(** [needle in haystack] on two [str] *)
Fixpoint contains (needle hay : text) : bool :=
  starts_with needle hay ||
  match hay with
  | [] => false
  | _ :: hay' => contains needle hay'
  end.

(** [str(n)] for a non-negative [int] *)
Definition str_of_nat (n : nat) : text :=
  U (NilEmpty.string_of_uint (Nat.to_uint n)).

(** ** Regular expressions: the fragment of [re] the program uses *)

Inductive category := CatSpace | CatDigit.

Inductive set_item :=
| SChr (c : N)
| SCat (k : category).

Inductive atom :=
| Chr (c : N)                               (* a literal character *)
| AnyChar                                   (* [.], DOTALL not set *)
| Cat (k : category)                        (* [\s], [\d] *)
| CharSet (neg : bool) (items : list set_item).  (* [[...]], [[^...]] *)

Inductive node :=
| One (a : atom)
| Star (a : atom)        (* greedy [a*] *)
| Mark.                  (* a parenthesis of a capturing group *)

Definition regex := list node.

(** The simple lower-case mapping, on the characters whose image is an ASCII
    letter, together with the two equivalences of [sre] that involve an ASCII
    letter (dotless i with i, long s with s).  For an ASCII pattern character
    [p], [re.IGNORECASE] accepts [c] exactly when [fold_case c = fold_case p];
    every pattern of the program is ASCII. *)
Definition fold_case (c : N) : N :=
  if ((65 <=? c) && (c <=? 90))%N then (c + 32)%N
  else if (c =? 304)%N then 105       (* U+0130 *)
  else if (c =? 305)%N then 105       (* U+0131 *)
  else if (c =? 383)%N then 115       (* U+017F *)
  else if (c =? 8490)%N then 107      (* U+212A *)
  else c.

Definition chr_matches (ignorecase : bool) (p c : N) : bool :=
  if ignorecase then (fold_case p =? fold_case c)%N else (p =? c)%N.

(** [str.isspace] on one character, which is what [\s] tests in a [str]
    pattern. *)
Definition unicode_isspace (c : N) : bool :=
  ((9 <=? c) && (c <=? 13) || (28 <=? c) && (c <=? 32) || (c =? 133)
   || (c =? 160) || (c =? 5760) || (8192 <=? c) && (c <=? 8202)
   || (c =? 8232) || (c =? 8233) || (c =? 8239) || (c =? 8287)
   || (c =? 12288))%N.

(** The decimal digits of ASCII.  The digits [\d] accepts in a [str] pattern
    are those of the Unicode database (general category Nd), a table of the
    interpreter and not of this repository: the matcher takes it as the
    parameter [isdecimal], and [ascii_isdecimal] is its restriction to
    ASCII. *)
Definition ascii_isdecimal (c : N) : bool := ((48 <=? c) && (c <=? 57))%N.

Section Matcher.

Variable isdecimal : N -> bool.

Definition cat_matches (k : category) (c : N) : bool :=
  match k with
  | CatSpace => unicode_isspace c
  | CatDigit => isdecimal c
  end.

Definition item_matches (ignorecase : bool) (i : set_item) (c : N) : bool :=
  match i with
  | SChr p => chr_matches ignorecase p c
  | SCat k => cat_matches k c
  end.

Definition atom_matches (ignorecase : bool) (a : atom) (c : N) : bool :=
  match a with
  | Chr p => chr_matches ignorecase p c
  | AnyChar => negb (c =? NL)%N
  | Cat k => cat_matches k c
  | CharSet neg items =>
      xorb neg (existsb (fun i => item_matches ignorecase i c) items)
  end.

(** Matching anchored at the head of [s].  The result holds the suffixes of
    the text at the group parentheses, in order, and the suffix left after
    the match.  [Star] is greedy and backtracks to shorter repetitions. *)
Fixpoint match_here (ic : bool) (re : regex) : text -> option (list text * text) :=
  match re with
  | [] => fun s => Some ([], s)
  | One a :: re' => fun s =>
      match s with
      | c :: s' => if atom_matches ic a c then match_here ic re' s' else None
      | [] => None
      end
  | Star a :: re' =>
      fix star (s : text) : option (list text * text) :=
        match s with
        | c :: s' =>
            if atom_matches ic a c
            then match star s' with
                 | Some r => Some r
                 | None => match_here ic re' s
                 end
            else match_here ic re' s
        | [] => match_here ic re' []
        end
  | Mark :: re' => fun s =>
      match match_here ic re' s with
      | Some (marks, rest) => Some (s :: marks, rest)
      | None => None
      end
  end.

(** A match object: the text from the start of the match, the suffixes at the
    group parentheses, and the text after the match. *)
Record match_obj := { m_start : text; m_marks : list text; m_end : text }.

(** The text between two suffixes of one string. *)
Definition span (from to : text) : text :=
  firstn (length from - length to) from.

(** [m.group(0)] *)
Definition group0 (m : match_obj) : text := span (m_start m) (m_end m).

(** [m.group(1)] *)
Definition group1 (m : match_obj) : text :=
  match m_marks m with
  | open :: close :: _ => span open close
  | _ => []
  end.

(** The leftmost position at which the pattern matches. *)
Fixpoint search_from (ic : bool) (re : regex) (s : text) : option match_obj :=
  match match_here ic re s with
  | Some (marks, rest) => Some {| m_start := s; m_marks := marks; m_end := rest |}
  | None =>
      match s with
      | [] => None
      | _ :: s' => search_from ic re s'
      end
  end.

(** The non-overlapping matches from left to right, as [re.findall] returns
    them for a pattern without groups.  [skip] counts the characters of the
    previous match still to step over. *)
Fixpoint findall_from (ic : bool) (re : regex) (skip : nat) (s : text) : list text :=
  match skip with
  | S k =>
      match s with
      | [] => []
      | _ :: s' => findall_from ic re k s'
      end
  | O =>
      match match_here ic re s with
      | Some (_, rest) =>
          span s rest ::
          match s with
          | [] => []
          | _ :: s' => findall_from ic re (length s - length rest - 1) s'
          end
      | None =>
          match s with
          | [] => []
          | _ :: s' => findall_from ic re 0 s'
          end
      end
  end.

End Matcher.

(** ** [re.compile] on the fragment

    Literal characters, [.], the escapes [\s], [\d] and escaped punctuation,
    character sets without ranges, capturing groups that carry no quantifier,
    and the greedy quantifiers [*] and [+] on a single character.  [None]
    stands for every pattern outside the fragment; no pattern of the program
    is (see [program_patterns_compile]). *)

Definition ord (a : ascii) : N := N_of_ascii a.

Definition is_punct (c : N) : bool :=
  ((33 <=? c) && (c <=? 47) || (58 <=? c) && (c <=? 64)
   || (91 <=? c) && (c <=? 96) || (123 <=? c) && (c <=? 126))%N.

Definition is_special (c : N) : bool :=
  existsb (N.eqb c)
    (map ord ["?"; "{"; "}"; "|"; "^"; "$"; "]"]%char).

Inductive pstate :=
| PTop                                             (* outside a set *)
| PEsc                                             (* after a backslash *)
| PSetOpen                                         (* after an opening bracket *)
| PSet (neg : bool) (items : list set_item)        (* inside a set *)
| PSetEsc (neg : bool) (items : list set_item).    (* after a backslash in a set *)

(** The escape [\c] as a set item. *)
Definition escape_item (c : N) : option set_item :=
  if (c =? ord "s")%N then Some (SCat CatSpace)
  else if (c =? ord "d")%N then Some (SCat CatDigit)
  else if is_punct c then Some (SChr c)
  else None.

Definition atom_of_item (i : set_item) : atom :=
  match i with
  | SChr c => Chr c
  | SCat k => Cat k
  end.

(** [acc] and the items of a set are kept in reverse; [grp] tells whether a
    group is open.  Groups do not nest in the fragment, so the marks of the
    first group are the first two. *)
Fixpoint parse (st : pstate) (grp : bool) (acc : list node) (s : text) : option regex :=
  match s with
  | [] =>
      match st with
      | PTop => if grp then None else Some (rev acc)
      | _ => None
      end
  | c :: s' =>
      match st with
      | PTop =>
          if (c =? ord "\")%N then parse PEsc grp acc s'
          else if (c =? ord ".")%N then parse PTop grp (One AnyChar :: acc) s'
          else if (c =? ord "[")%N then parse PSetOpen grp acc s'
          else if (c =? ord "(")%N then
            if grp then None else parse PTop true (Mark :: acc) s'
          else if (c =? ord ")")%N then
            if grp then parse PTop false (Mark :: acc) s' else None
          else if (c =? ord "*")%N then
            match acc with
            | One a :: acc' => parse PTop grp (Star a :: acc') s'
            | _ => None
            end
          else if (c =? ord "+")%N then
            match acc with
            | One a :: _ => parse PTop grp (Star a :: acc) s'
            | _ => None
            end
          else if is_special c then None
          else parse PTop grp (One (Chr c) :: acc) s'
      | PEsc =>
          match escape_item c with
          | Some i => parse PTop grp (One (atom_of_item i) :: acc) s'
          | None => None
          end
      | PSetOpen =>
          if (c =? ord "^")%N then parse (PSet true []) grp acc s'
          else if (c =? ord "\")%N then parse (PSetEsc false []) grp acc s'
          else if ((c =? ord "]") || (c =? ord "[") || (c =? ord "-"))%N then None
          else parse (PSet false [SChr c]) grp acc s'
      | PSet neg items =>
          if (c =? ord "\")%N then parse (PSetEsc neg items) grp acc s'
          else if (c =? ord "]")%N then
            match items with
            | [] => None
            | _ => parse PTop grp (One (CharSet neg (rev items)) :: acc) s'
            end
          else if ((c =? ord "[") || (c =? ord "-"))%N then None
          else parse (PSet neg (SChr c :: items)) grp acc s'
      | PSetEsc neg items =>
          match escape_item c with
          | Some i => parse (PSet neg (i :: items)) grp acc s'
          | None => None
          end
      end
  end.

Definition re_compile (pattern : text) : option regex := parse PTop false [] pattern.

(** Literal text as a pattern. *)
Definition lit (l : text) : regex := map (fun c => One (Chr c)) l.

(** ** Python values *)

(** A [dict] with [str] keys, in insertion order. *)
Definition dict (V : Type) := list (text * V).

(** [d.get(key)], [None] when the key is absent *)
Fixpoint dict_lookup {V : Type} (d : dict V) (key : text) : option V :=
  match d with
  | [] => None
  | (k, v) :: d' => if text_eqb k key then Some v else dict_lookup d' key
  end.

(** [d.get(key, default)] *)
Definition dict_get {V : Type} (d : dict V) (key : text) (default : V) : V :=
  match dict_lookup d key with
  | Some v => v
  | None => default
  end.

Inductive exception :=
| TypeError (msg : text)
| OSError (msg : text)
| UnicodeDecodeError (msg : text)
| JSONDecodeError (msg : text).

(** [str(e)] *)
Definition str_of_exception (e : exception) : text :=
  match e with
  | TypeError msg | OSError msg | UnicodeDecodeError msg | JSONDecodeError msg => msg
  end.

Inductive result (A : Type) :=
| Return (a : A)
| Raise (e : exception).

Arguments Return {A} a.
Arguments Raise {A} e.

Definition bind {A B : Type} (r : result A) (k : A -> result B) : result B :=
  match r with
  | Return a => k a
  | Raise e => Raise e
  end.

Notation "'let*' x ':=' r 'in' k" := (bind r (fun x => k))
  (at level 10, x name, r at level 100, k at level 200).

(** The content of one stream: a [str], or a list of [str], the two forms the
    input format names.  Streams that hold another JSON value (null, a
    number, an object) are outside the model; the statements below that
    speak of a list-valued stream claim nothing about them. *)
Inductive log_content :=
| Str (s : text)
| StrList (lines : list text).

(** The parsed JSON object of one test case; [None] is an absent key.  The
    model covers the objects whose [logs] and [original_json_data], when
    present, are objects, the metadata values being [str]; a file that holds
    another JSON value is outside it. *)
Record log_data := {
  case_id : option text;
  logs : option (dict log_content);
  original_json_data : option (dict text)
}.

(** [(severity_stage, root_cause_summary, evidence_keywords, confidence)] *)
Definition verdict := (Z * text * list text * Q)%type.

Definition severity_stage (v : verdict) : Z := fst (fst (fst v)).
Definition root_cause_summary (v : verdict) : text := snd (fst (fst v)).
Definition evidence_keywords (v : verdict) : list text := snd (fst v).
Definition confidence (v : verdict) : Q := snd v.

(** The names of the severity labels, for the integers the source returns. *)
Definition NoError : Z := 0.
Definition ComponentCrash : Z := 1.
Definition ComponentAbnormal : Z := 2.
Definition ConnectionFailure : Z := 3.
Definition ProcessingError : Z := -1.

(** ** The pattern catalog *)

Definition crash_patterns : list text := map U [
  "Assertion.*failed";
  "Assert_Exit_";
  "Exiting execution";
  "exit_fun";
  "Segmentation fault";
  "config_execcheck.*failed";
  "fatal";
  "abort\(\)";
  "core dump"
]%string.

Definition abnormal_patterns : list text := map U [
  "ERROR";
  "CRITICAL";
  "failed.*initialization";
  "failed.*init";
  "Connection.*failed";
  "timeout.*exceeded";
  "retry.*limit"
]%string.

Definition ue_failure_patterns : list text := map U [
  "RA procedure.*failed";
  "RRC.*reject";
  "Registration.*reject";
  "PDU.*session.*failed";
  "attach.*failed";
  "connection.*reject";
  "UE.*connection.*failed"
]%string.

Definition success_patterns : list text := map U [
  "PDU Session Establishment Accept";
  "RA procedure succeeded";
  "RRC_CONNECTED reached";
  "CBRA procedure succeeded";
  "successfully configured.*IPv4";
  "Received PDU Session Establishment Accept"
]%string.

(** The flags of [re].  [MULTILINE] changes the meaning of [^] and [$] only,
    and the fragment has neither. *)
Record re_flags := { IGNORECASE : bool; MULTILINE : bool }.

Definition no_flags : re_flags := {| IGNORECASE := false; MULTILINE := false |}.
Definition ignorecase_multiline : re_flags := {| IGNORECASE := true; MULTILINE := true |}.

(** The message of the [TypeError] that [list + str] raises. *)
Definition concat_list_str_msg : text :=
  U "can only concatenate list (not " ++ [34%N] ++ U "str" ++ [34%N] ++ U ") to list".

(** The message of the [TypeError] that [re.findall] raises on a list. *)
Definition findall_list_msg : text :=
  U "expected string or bytes-like object, got 'list'".

(** The cascade's return statements, in source order. *)
Inductive rule :=
| CrashRule
| SuccessRule
| UEFailureRule
| AbnormalRule
| RepeatedConnectRule
| MetadataRule
| ResidualSuccessRule
| UncertainRule.

(** The confidence literal of each return statement. *)
Definition rule_confidence (r : rule) : Q :=
  match r with
  | CrashRule => 0.95
  | SuccessRule => 0.90
  | UEFailureRule => 0.85
  | AbnormalRule => 0.70
  | RepeatedConnectRule => 0.80
  | MetadataRule => 0.50
  | ResidualSuccessRule => 0.70
  | UncertainRule => 0.30
  end.

(** The severity literal of each return statement. *)
Definition rule_severity (r : rule) : Z :=
  match r with
  | CrashRule => 1
  | SuccessRule => 0
  | UEFailureRule => 3
  | AbnormalRule => 2
  | RepeatedConnectRule => 3
  | MetadataRule => 2
  | ResidualSuccessRule => 0
  | UncertainRule => 0
  end.

(** The constants the spec lists for the confidence. *)
Definition confidence_constants : list Q :=
  [0.95; 0.90; 0.85; 0.80; 0.70; 0.50; 0.30].

Section Classifier.

(** The Unicode decimal-digit table behind [\d]. *)
Variable isdecimal : N -> bool.

(** [re.search(pattern, s, flags)], for the patterns [re_compile] reads; the
    patterns of the program are among them ([program_patterns_compile]), and
    the statements below are about these. *)
Definition re_search (pattern : text) (s : text) (flags : re_flags) : option match_obj :=
  match re_compile pattern with
  | Some re => search_from isdecimal (IGNORECASE flags) re s
  | None => None
  end.

(** [re.findall(pattern, s)] *)
Definition re_findall (pattern : text) (s : text) : list text :=
  match re_compile pattern with
  | Some re => findall_from isdecimal false re 0 s
  | None => []
  end.

(** Truth value of an optional match. *)
Definition is_match (m : option match_obj) : bool :=
  match m with
  | Some _ => true
  | None => false
  end.

(** ** [check_patterns] *)

Fixpoint check_patterns_loop (s : text) (patterns matches : list text) : list text :=
  match patterns with
  | [] => matches
  | pattern :: patterns' =>
      check_patterns_loop s patterns'
        (if is_match (re_search pattern s ignorecase_multiline)
         then matches ++ [pattern]
         else matches)
  end.

Definition check_patterns (s : text) (patterns : list text) : bool * list text :=
  let matches := check_patterns_loop s patterns [] in
  ((0 <? length matches)%nat, matches).

(** ** [classify_severity] *)

(** The loop [for log_key, log_content in log_data["logs"].items():
    all_logs += log_content + "\n"]. *)
Fixpoint combine_logs (items : dict log_content) (all_logs : text) : result text :=
  match items with
  | [] => Return all_logs
  | (log_key, log_content) :: items' =>
      match log_content with
      | Str s => combine_logs items' (all_logs ++ (s ++ [NL]))
      | StrList _ => Raise (TypeError concat_list_str_msg)
      end
  end.

(** [needle in content]: a substring test on a [str], membership on a list. *)
Definition py_in (needle : text) (content : log_content) : bool :=
  match content with
  | Str s => contains needle s
  | StrList lines => existsb (text_eqb needle) lines
  end.

(** [len(re.findall(pattern, content))] *)
Definition len_findall (pattern : text) (content : log_content) : result nat :=
  match content with
  | Str s => Return (length (re_findall pattern s))
  | StrList _ => Raise (TypeError findall_list_msg)
  end.

(** Truth value of a [str]. *)
Definition truthy (s : text) : bool :=
  match s with
  | [] => false
  | _ :: _ => true
  end.

(** [sum] of a list of [bool] *)
Definition sum_bools (l : list bool) : nat := length (filter (fun b => b) l).

Definition classify_severity (log_data : log_data) : result verdict :=
  (* Combine all logs *)
  let* all_logs := match logs log_data with
              | Some items => combine_logs items []
              | None => Return []
              end in
  let metadata := match original_json_data log_data with
                  | Some m => m
                  | None => []
                  end in
  let filename := dict_get metadata (U "filename") (U "unknown") in
  let affected_module := dict_get metadata (U "affected_module") (U "Unknown") in
  let error_type := dict_get metadata (U "error_type") [] in
  let impact_desc := dict_get metadata (U "impact_description") [] in
  let evidence : list text := [] in
  (* Priority 1: Check for crashes (Severity 1) *)
  let '(has_crash, crash_evidence) := check_patterns all_logs crash_patterns in
  if has_crash then
    let evidence := evidence ++ crash_evidence in
    let root_cause :=
      U "組件崩潰：在 " ++ filename
        ++ U " 中偵測到 assertion 失敗或 exit，錯誤類型：" ++ error_type in
    let evidence :=
      if contains (U "Assertion") all_logs && contains (U "failed") all_logs then
        match re_search (U "Assertion \(([^)]+)\) failed") all_logs no_flags with
        | Some assertion_match =>
            evidence ++ [U "Assertion: " ++ group1 assertion_match]
        | None => evidence
        end
      else evidence in
    Return (1%Z, root_cause, evidence, 0.95)
  else
  (* Check for success patterns *)
  let '(has_success, success_evidence) := check_patterns all_logs success_patterns in
  let pdu_session_accept := contains (U "PDU Session Establishment Accept") all_logs in
  let rrc_connected := contains (U "RRC_CONNECTED reached") all_logs in
  let cbra_succeeded := contains (U "CBRA procedure succeeded") all_logs in
  let ipv4_configured := re_search (U "IPv4\s+[\d\.]+") all_logs no_flags in
  let success_count :=
    sum_bools [pdu_session_accept; rrc_connected; cbra_succeeded;
               is_match ipv4_configured] in
  if has_success && (2 <=? success_count)%nat then
    let root_cause :=
      U "無錯誤：在 " ++ filename
        ++ U " 中 UE 成功建立連線並獲取 IP，所有主要流程正常完成" in
    let evidence := evidence ++ success_evidence in
    let evidence :=
      match ipv4_configured with
      | Some m => evidence ++ [U "IPv4配置成功: " ++ group0 m]
      | None => evidence
      end in
    Return (0%Z, root_cause, evidence, 0.90)
  else
  (* Priority 2: Check for UE connection failures (Severity 3) *)
  let '(has_ue_failure, ue_failure_evidence) :=
    check_patterns all_logs ue_failure_patterns in
  if has_ue_failure then
    let evidence := evidence ++ ue_failure_evidence in
    let root_cause :=
      U "UE 連線失敗：組件啟動正常但 UE 無法完成連線，在 " ++ affected_module
        ++ U " 模組偵測到失敗" in
    Return (3%Z, root_cause, evidence, 0.85)
  else
  (* Priority 3: Check for abnormal but no crash (Severity 2) *)
  let '(has_abnormal, abnormal_evidence) :=
    check_patterns all_logs abnormal_patterns in
  if has_abnormal then
    let evidence := evidence ++ abnormal_evidence in
    let root_cause :=
      U "組件異常運行：在 " ++ filename ++ U " 中 " ++ affected_module
        ++ U " 模組出現錯誤但未崩潰，" ++ impact_desc in
    Return (2%Z, root_cause, evidence, 0.70)
  else
  (* Check for connection attempts in UE log *)
  let ue_log :=
    dict_get (match logs log_data with Some items => items | None => [] end)
             (U "ue.stdout.log") (Str []) in
  let* repeated :=
    (if py_in (U "connect() to") ue_log && py_in (U "failed, errno") ue_log then
       if negb has_success then
         let* connect_failures := len_findall (U "connect\(\).*failed") ue_log in
         if (10 <? connect_failures)%nat then
           let root_cause :=
             U "UE 連線失敗：UE 無法連接到 DU (重試 "
               ++ str_of_nat connect_failures ++ U " 次)" in
           let evidence :=
             evidence ++ [str_of_nat connect_failures
                            ++ U " connection attempts failed"] in
           Return (Some (3%Z, root_cause, evidence, 0.80))
         else Return None
       else Return None
     else Return None) in
  match repeated with
  | Some v => Return v
  | None =>
  (* Default: error_type in metadata but no clear classification *)
  if truthy error_type && negb (text_eqb error_type []) then
    let root_cause :=
      U "可能異常：配置錯誤 (" ++ error_type ++ U ") 在 " ++ filename
        ++ U "，但 log 中無明確崩潰或失敗訊息" in
    let evidence := evidence ++ [U "Config error: " ++ error_type] in
    let evidence := evidence ++ [U "Impact: " ++ impact_desc] in
    Return (2%Z, root_cause, evidence, 0.50)
  else
  (* If reached here with success patterns, mark as success *)
  if has_success then
    let root_cause :=
      U "無錯誤：在 " ++ filename ++ U " 中未發現明顯錯誤，有成功連線的跡象" in
    let evidence := evidence ++ success_evidence in
    Return (0%Z, root_cause, evidence, 0.70)
  else
  (* Uncertain case *)
  let root_cause :=
    U "無法判斷：log 資訊不足以明確分類，檔案 " ++ filename in
  let evidence := evidence ++ [U "Insufficient log information"] in
  Return (0%Z, root_cause, evidence, 0.30)
  end.

(** The return statement [classify_severity] leaves through: the same tests
    in the same order, with the rule in place of the tuple. *)
Definition fired_rule (log_data : log_data) : result rule :=
  let* all_logs := match logs log_data with
              | Some items => combine_logs items []
              | None => Return []
              end in
  let metadata := match original_json_data log_data with
                  | Some m => m
                  | None => []
                  end in
  let error_type := dict_get metadata (U "error_type") [] in
  if fst (check_patterns all_logs crash_patterns) then Return CrashRule
  else
  let has_success := fst (check_patterns all_logs success_patterns) in
  let success_count :=
    sum_bools [contains (U "PDU Session Establishment Accept") all_logs;
               contains (U "RRC_CONNECTED reached") all_logs;
               contains (U "CBRA procedure succeeded") all_logs;
               is_match (re_search (U "IPv4\s+[\d\.]+") all_logs no_flags)] in
  if has_success && (2 <=? success_count)%nat then Return SuccessRule
  else if fst (check_patterns all_logs ue_failure_patterns) then Return UEFailureRule
  else if fst (check_patterns all_logs abnormal_patterns) then Return AbnormalRule
  else
  let ue_log :=
    dict_get (match logs log_data with Some items => items | None => [] end)
             (U "ue.stdout.log") (Str []) in
  let* repeated :=
    (if py_in (U "connect() to") ue_log && py_in (U "failed, errno") ue_log then
       if negb has_success then
         let* connect_failures := len_findall (U "connect\(\).*failed") ue_log in
         Return (10 <? connect_failures)%nat
       else Return false
     else Return false) in
  if (repeated : bool) then Return RepeatedConnectRule
  else if truthy error_type && negb (text_eqb error_type []) then Return MetadataRule
  else if has_success then Return ResidualSuccessRule
  else Return UncertainRule.

(** ** [analyze_file] *)

(** [s.upper()], on the ASCII letters.  The tests below look for D, U, C and
    E, and no character outside ASCII has one of them in its upper case. *)
Definition upper (s : text) : text :=
  map (fun c => if ((97 <=? c) && (c <=? 122))%N then (c - 32)%N else c) s.

Definition extract_component_from_filename (filename : text) : text :=
  let filename_upper := upper filename in
  if contains (U "DU") filename_upper then U "DU"
  else if contains (U "CU") filename_upper then U "CU"
  else if contains (U "UE") filename_upper then U "UE"
  else U "Unknown".

(** What the program reads of a [pathlib.Path]. *)
Record Path := {
  path_str : text;           (* [str(filepath)] *)
  path_name : text;          (* [filepath.name] *)
  path_stem : text;          (* [filepath.stem] *)
  path_parent_name : text    (* [filepath.parent.name] *)
}.

(** The outcome of [open(filepath)] followed by [json.load(f)]: an exception
    when the file cannot be read or is not JSON, the parsed object
    otherwise. *)
Inductive load_outcome :=
| LoadRaises (e : exception)
| Loaded (log_data : log_data).

(** The record [analyze_file] returns. *)
Record report := {
  r_case_id : text;
  r_severity_stage : Z;
  r_root_cause_summary : text;
  r_evidence_keywords : list text;
  r_component : text;
  r_confidence : Q
}.

(** [analyze_file], with the classifier it calls as a parameter. *)
Definition analyze_file_with (classify : log_data -> result verdict)
    (filepath : Path) (loaded : load_outcome) : report :=
  let body : result report :=
    let* log_data := match loaded with
                | LoadRaises e => Raise e
                | Loaded log_data => Return log_data
                end in
    let case_id := match case_id log_data with
                   | Some c => c
                   | None => path_stem filepath
                   end in
    let metadata := match original_json_data log_data with
                    | Some m => m
                    | None => []
                    end in
    let filename := dict_get metadata (U "filename") (U "unknown") in
    (* Classify severity *)
    let* v := classify log_data in
    let '(severity, root_cause, evidence, confidence) := v in
    (* Determine component *)
    let component := extract_component_from_filename filename in
    Return {| r_case_id := path_parent_name filepath ++ U "/" ++ path_name filepath;
              r_severity_stage := severity;
              r_root_cause_summary := root_cause;
              r_evidence_keywords := evidence;
              r_component := component;
              r_confidence := confidence |} in
  match body with
  | Return r => r
  | Raise e =>
      {| r_case_id := path_str filepath;
         r_severity_stage := -1;
         r_root_cause_summary := U "Error processing file: " ++ str_of_exception e;
         r_evidence_keywords := [str_of_exception e];
         r_component := U "Error";
         r_confidence := 0.0 |}
  end.

Definition analyze_file : Path -> load_outcome -> report :=
  analyze_file_with classify_severity.

(** ** [analyze_directory] *)

(** A file of the directory: its path and what loading it yields. *)
Definition dir_entry := (Path * load_outcome)%type.

(** The loop of [analyze_directory]; [i] is the index [enumerate] gives, from
    1, and [stdout] the lines printed so far. *)
Fixpoint analyze_directory_loop (total i : nat) (json_files : list dir_entry)
    (results : list report) (stdout : list text) : list report * list text :=
  match json_files with
  | [] => (results, stdout)
  | (filepath, loaded) :: json_files' =>
      let stdout :=
        if (i mod 10 =? 0)%nat
        then stdout ++ [U "  Progress: " ++ str_of_nat i ++ U "/" ++ str_of_nat total]
        else stdout in
      let result := analyze_file filepath loaded in
      analyze_directory_loop total (S i) json_files' (results ++ [result]) stdout
  end.

(** [analyze_directory], on the sorted list of the directory's JSON files;
    the second component is what it prints. *)
Definition analyze_directory (directory : text) (json_files : list dir_entry)
    : list report * list text :=
  analyze_directory_loop (length json_files) 1 json_files []
    [U "Analyzing " ++ str_of_nat (length json_files) ++ U " files in "
       ++ directory ++ U "..."].

(** ** The statistics of [main]

    The severity histogram and the two confidence bands that [main] of
    [analyze_logs.py] and the script [print_summary.py] compute from the list
    of records. *)

(** A [dict] with [int] keys, in insertion order. *)
Definition idict (V : Type) := list (Z * V).

Fixpoint idict_lookup {V : Type} (d : idict V) (key : Z) : option V :=
  match d with
  | [] => None
  | (k, v) :: d' => if (k =? key)%Z then Some v else idict_lookup d' key
  end.

(** [d.get(key, default)] *)
Definition idict_get {V : Type} (d : idict V) (key : Z) (default : V) : V :=
  match idict_lookup d key with
  | Some v => v
  | None => default
  end.

(** [d[key] = v]: the value is replaced in place, a new key goes last. *)
Fixpoint idict_set {V : Type} (d : idict V) (key : Z) (v : V) : idict V :=
  match d with
  | [] => [(key, v)]
  | (k, w) :: d' => if (k =? key)%Z then (k, v) :: d' else (k, w) :: idict_set d' key v
  end.

(** The loop [severity_counts[sev] = severity_counts.get(sev, 0) + 1]. *)
Fixpoint severity_counts_loop (all_results : list report) (severity_counts : idict nat)
    : idict nat :=
  match all_results with
  | [] => severity_counts
  | result :: all_results' =>
      let sev := r_severity_stage result in
      severity_counts_loop all_results'
        (idict_set severity_counts sev (idict_get severity_counts sev 0%nat + 1)%nat)
  end.

Definition severity_counts (all_results : list report) : idict nat :=
  severity_counts_loop all_results [].

(** [[r for r in all_results if r["confidence"] >= 0.85]] *)
Definition high_conf (all_results : list report) : list report :=
  filter (fun r => Qle_bool 0.85 (r_confidence r)) all_results.

(** [[r for r in all_results if r["confidence"] < 0.60]] *)
Definition low_conf (all_results : list report) : list report :=
  filter (fun r => negb (Qle_bool 0.60 (r_confidence r))) all_results.

(** ** [classify_and_organize]

    The loop over the JSON files of the source tree.  Creating the
    destination folders and writing the report are taken to succeed, and the
    printed lines are left out; the function's value [(results, file_counts)]
    and the copies it makes are modelled. *)

Definition severity_labels : idict text := [
  (0%Z, U "severity_0_no_error");
  (1%Z, U "severity_1_crash");
  (2%Z, U "severity_2_abnormal");
  (3%Z, U "severity_3_ue_failure")
].

(** [severity_dirs]: the folder of each severity, by its name under
    [dest_dir]. *)
Definition severity_dirs : idict text := severity_labels.

(** A file of the source tree: its path relative to [source_dir], what
    loading it yields, and the exception of [mkdir] or [shutil.copy2] when
    the copy fails. *)
Record source_file := {
  rel_path : text;
  sf_loaded : load_outcome;
  copy_raises : option exception
}.

(** An entry of the classification report. *)
Record organized := {
  o_source_file : text;
  o_severity_stage : Z;
  o_destination_folder : text;
  o_root_cause_summary : text;
  o_confidence : Q;
  o_evidence_keywords : list text
}.

(** The state of the loop: the report, the counters, and the copies made, as
    pairs of a destination folder and a relative path. *)
Record organize_state := {
  os_results : list organized;
  os_file_counts : idict nat;
  os_copies : list (text * text)
}.

(** One iteration.  Every exception inside the [try] leaves through
    [except Exception], which prints and continues: the state is returned as
    it stands at the raise. *)
Definition organize_file (st : organize_state) (f : source_file) : organize_state :=
  match (let* log_data := match sf_loaded f with
                          | LoadRaises e => Raise e
                          | Loaded log_data => Return log_data
                          end in
         classify_severity log_data) with
  | Raise _ => st
  | Return (severity, root_cause, evidence, confidence) =>
      (* dest_path = severity_dirs[severity] / rel_path *)
      match idict_lookup severity_dirs severity with
      | None => st
      | Some folder =>
          (* dest_path.parent.mkdir(...); shutil.copy2(filepath, dest_path) *)
          match copy_raises f with
          | Some _ => st
          | None =>
              let st := {| os_results := os_results st;
                           os_file_counts := os_file_counts st;
                           os_copies := os_copies st ++ [(folder, rel_path f)] |} in
              (* file_counts[severity] += 1 *)
              match idict_lookup (os_file_counts st) severity with
              | None => st
              | Some n =>
                  let st := {| os_results := os_results st;
                               os_file_counts :=
                                 idict_set (os_file_counts st) severity (n + 1)%nat;
                               os_copies := os_copies st |} in
                  match idict_lookup severity_labels severity with
                  | None => st
                  | Some label =>
                      let result :=
                        {| o_source_file := rel_path f;
                           o_severity_stage := severity;
                           o_destination_folder := label;
                           o_root_cause_summary := root_cause;
                           o_confidence := confidence;
                           o_evidence_keywords := firstn 3 evidence |} in
                      {| os_results := os_results st ++ [result];
                         os_file_counts := os_file_counts st;
                         os_copies := os_copies st |}
                  end
              end
          end
      end
  end.

Definition initial_organize_state : organize_state :=
  {| os_results := [];
     os_file_counts := [(0%Z, 0%nat); (1%Z, 0%nat); (2%Z, 0%nat); (3%Z, 0%nat)];
     os_copies := [] |}.

Definition classify_and_organize (json_files : list source_file) : organize_state :=
  fold_left organize_file json_files initial_organize_state.

(** ** Vocabulary of the statements *)

(** The value of [all_logs] after the loop of [classify_severity]. *)
Definition corpus (log_data : log_data) : result text :=
  match logs log_data with
  | Some items => combine_logs items []
  | None => Return []
  end.

(** The metadata field [error_type], empty when absent. *)
Definition error_type_of (log_data : log_data) : text :=
  dict_get (match original_json_data log_data with Some m => m | None => [] end)
           (U "error_type") [].

(** The stream the repeated-connection heuristic reads. *)
Definition ue_log_of (log_data : log_data) : log_content :=
  dict_get (match logs log_data with Some items => items | None => [] end)
           (U "ue.stdout.log") (Str []).

(** A tier fires when one of its patterns is found in the corpus. *)
Definition tier_fires (all_logs : text) (patterns : list text) : bool :=
  fst (check_patterns all_logs patterns).

(** The number of success sub-signals present in the corpus. *)
Definition success_signal_count (all_logs : text) : nat :=
  sum_bools [contains (U "PDU Session Establishment Accept") all_logs;
             contains (U "RRC_CONNECTED reached") all_logs;
             contains (U "CBRA procedure succeeded") all_logs;
             is_match (re_search (U "IPv4\s+[\d\.]+") all_logs no_flags)].

(** The number of occurrences of the connect-failure pattern. *)
Definition connect_failure_count (ue_log : text) : nat :=
  length (re_findall (U "connect\(\).*failed") ue_log).

(** The pattern matches at offset [i] of [s]. *)
Definition matches_at (pattern : text) (s : text) (i : nat) : bool :=
  match re_compile pattern with
  | Some re =>
      match match_here isdecimal false re (skipn i s) with
      | Some _ => true
      | None => false
      end
  | None => false
  end.

(** The assertion line of the spec's scenario and the expression in it. *)
Definition scenario_assertion : text :=
  U "Assertion (num_tx >= config.pdsch_AntennaPorts.XP) failed!".

Definition scenario_expression : text :=
  U "num_tx >= config.pdsch_AntennaPorts.XP".

(** The metadata field [filename], with its default. *)
Definition filename_of (log_data : log_data) : text :=
  dict_get (match original_json_data log_data with Some m => m | None => [] end)
           (U "filename") (U "unknown").

(** The test of the repeated-connection heuristic on the UE stream. *)
Definition repeated_connection_heuristic (ue_log : text) : bool :=
  contains (U "connect() to") ue_log && contains (U "failed, errno") ue_log
  && (10 <? connect_failure_count ue_log)%nat.

(** The bundles of the uncertain terminal case: no tier fires, the UE stream
    does not satisfy the heuristic, and the metadata [error_type] is empty. *)
Definition uncertain_input (log_data : log_data) : Prop :=
  exists all_logs ue_log,
    corpus log_data = Return all_logs /\
    tier_fires all_logs crash_patterns = false /\
    tier_fires all_logs success_patterns = false /\
    tier_fires all_logs ue_failure_patterns = false /\
    tier_fires all_logs abnormal_patterns = false /\
    ue_log_of log_data = Str ue_log /\
    repeated_connection_heuristic ue_log = false /\
    error_type_of log_data = [].

(** The bundles with a Success-tier match short of corroboration and no
    Crash-, ConnectionFailure- or Abnormal-tier match. *)
Definition lone_success_input (log_data : log_data) : Prop :=
  exists all_logs,
    corpus log_data = Return all_logs /\
    tier_fires all_logs success_patterns = true /\
    (success_signal_count all_logs < 2)%nat /\
    tier_fires all_logs crash_patterns = false /\
    tier_fires all_logs ue_failure_patterns = false /\
    tier_fires all_logs abnormal_patterns = false.

(** Every stream of the bundle is a [str]. *)
Definition text_streams (log_data : log_data) : Prop :=
  forall items key content,
    logs log_data = Some items -> In (key, content) items ->
    exists s, content = Str s.

(** The input shape the specification documents: every stream is a [str] or
    a list of [str]. *)
Definition documented_shape (log_data : log_data) : Prop :=
  forall items key content,
    logs log_data = Some items -> In (key, content) items ->
    (exists s, content = Str s) \/ (exists lines, content = StrList lines).

(** An evidence list that cites [fragment] in one of its entries. *)
Definition cites (evidence : list text) (fragment : text) : Prop :=
  exists entry, In entry evidence /\ contains fragment entry = true.

(** The metadata fields [affected_module] and [impact_description], with
    their defaults. *)
Definition affected_module_of (log_data : log_data) : text :=
  dict_get (match original_json_data log_data with Some m => m | None => [] end)
           (U "affected_module") (U "Unknown").

Definition impact_desc_of (log_data : log_data) : text :=
  dict_get (match original_json_data log_data with Some m => m | None => [] end)
           (U "impact_description") [].

(** The success test of the cascade's second return. *)
Definition corroborated (all_logs : text) : bool :=
  tier_fires all_logs success_patterns && (2 <=? success_signal_count all_logs)%nat.

(** The four pattern lists. *)
Definition pattern_catalog : list (list text) :=
  [crash_patterns; abnormal_patterns; ue_failure_patterns; success_patterns].

(** Two texts that differ in letter case only. *)
Definition same_modulo_case (s s' : text) : Prop :=
  Forall2 (fun c c' => fold_case c = fold_case c') s s'.

(** The pattern tests its characters through [fold_case] alone: it is made
    of literals and [.]. *)
Definition case_blind (re : regex) : bool :=
  forallb (fun n => match n with
                    | One (Chr _) | One AnyChar | Star (Chr _) | Star AnyChar | Mark => true
                    | _ => false
                    end) re.

(** No character test of the pattern accepts a newline. *)
Definition rejects_newline (ic : bool) (re : regex) : bool :=
  forallb (fun n => match n with
                    | One a | Star a => negb (atom_matches isdecimal ic a NL)
                    | Mark => true
                    end) re.

(** The character tests of the pattern do not tell apart two characters
    that [R] relates. *)
Definition respects (R : N -> N -> Prop) (ic : bool) (re : regex) : Prop :=
  Forall (fun n => match n with
                   | One a | Star a =>
                       forall c c', R c c' ->
                         atom_matches isdecimal ic a c = atom_matches isdecimal ic a c'
                   | Mark => True
                   end) re.

(** The texts of the streams, in order. *)
Definition stream_texts (items : dict log_content) : list text :=
  map (fun kv => match snd kv with Str s => s | StrList _ => [] end) items.

(** A stream of the bundle is a list. *)
Definition has_list_stream (log_data : log_data) : Prop :=
  exists items key lines,
    logs log_data = Some items /\ In (key, StrList lines) items.

(** [sum(d.values())] *)
Definition idict_total (d : idict nat) : nat :=
  fold_right (fun kv acc => (snd kv + acc)%nat) 0%nat d.

(** The number of records of severity [sev]. *)
Definition count_severity (sev : Z) (severities : list Z) : nat :=
  count_occ Z.eq_dec severities sev.

(** The report entry of a file whose bundle got the verdict [v]. *)
Definition organize_entry (f : source_file) (v : verdict) : organized :=
  {| o_source_file := rel_path f;
     o_severity_stage := severity_stage v;
     o_destination_folder := idict_get severity_labels (severity_stage v) [];
     o_root_cause_summary := root_cause_summary v;
     o_confidence := confidence v;
     o_evidence_keywords := firstn 3 (evidence_keywords v) |}.

(** The report entries a file contributes: one when it loads, is classified
    and is copied, none otherwise. *)
Definition organized_of (f : source_file) : list organized :=
  match sf_loaded f with
  | LoadRaises _ => []
  | Loaded log_data =>
      match classify_severity log_data with
      | Raise _ => []
      | Return v =>
          match copy_raises f with
          | Some _ => []
          | None => [organize_entry f v]
          end
      end
  end.

(** What the loop of [classify_and_organize] keeps true of its state. *)
Definition organize_inv (st : organize_state) : Prop :=
  map fst (os_file_counts st) = [0; 1; 2; 3]%Z
  /\ (forall sev, idict_get (os_file_counts st) sev 0%nat
                  = count_severity sev (map o_severity_stage (os_results st)))
  /\ os_copies st
     = map (fun r => (o_destination_folder r, o_source_file r)) (os_results st).

(** What a report entry and a record of [analyze_file] have in common. *)
Definition organized_core (r : organized) : Z * text * list text * Q :=
  (o_severity_stage r, o_root_cause_summary r, o_evidence_keywords r, o_confidence r).

Definition report_core (r : report) : Z * text * list text * Q :=
  (r_severity_stage r, r_root_cause_summary r, firstn 3 (r_evidence_keywords r),
   r_confidence r).


(** [s.split("\n")]: the lines of a text. *)
Fixpoint lines (s : text) : list text :=
  match s with
  | [] => [[]]
  | c :: s' =>
      if (c =? NL)%N then [] :: lines s'
      else match lines s' with
           | l :: ls => (c :: l) :: ls
           | [] => [[c]]
           end
  end.

(** The text holds no newline. *)
Definition one_line (s : text) : Prop := Forall (fun c => (c =? NL)%N = false) s.

(** The text holds [a] and, after it, [b]. *)
Fixpoint contains_then (a b s : text) : bool :=
  starts_with a s && contains b (skipn (length a) s)
  || match s with
     | [] => false
     | _ :: s' => contains_then a b s'
     end.

(** The pattern [a.*b] for two literals [a] and [b]. *)
Definition then_re (a b : text) : regex := lit a ++ [Star AnyChar] ++ lit b.

(** [a.*b] is found in the text. *)
Definition then_hit (a b s : text) : bool :=
  is_match (search_from isdecimal false (then_re a b) s).

(** The pattern of the repeated-connection rule, compiled. *)
Definition connect_failed_re : regex := then_re (U "connect()") (U "failed").

(** A line in which a failed connect is reported. *)
Definition connect_failed_line (l : text) : bool :=
  contains_then (U "connect()") (U "failed") l.
(** ** Bundles used as concrete inputs *)

Definition bundle (streams : list (string * string))
    (metadata : list (string * string)) : log_data :=
  {| case_id := None;
     logs := Some (map (fun kv => (U (fst kv), Str (U (snd kv)))) streams);
     original_json_data := Some (map (fun kv => (U (fst kv), U (snd kv))) metadata) |}.

(** [{}] *)
Definition empty_bundle : log_data :=
  {| case_id := None; logs := None; original_json_data := None |}.

(** A crash after a partial success. *)
Definition crash_after_success : log_data :=
  bundle [("du.stdout.log", "RRC_CONNECTED reached");
          ("ue.stdout.log", "Received PDU Session Establishment Accept");
          ("cu.stdout.log", "Segmentation fault (core dumped)")]%string [].

(** The success scenario of the spec. *)
Definition success_scenario : log_data :=
  bundle [("ue.stdout.log",
           "Received PDU Session Establishment Accept, RRC_CONNECTED reached, IPv4 10.0.0.5")]%string
         [].

(** One success keyword, with and without a metadata [error_type]. *)
Definition lone_success : log_data :=
  bundle [("du.stdout.log", "RA procedure succeeded")]%string [].

Definition lone_success_with_error_type : log_data :=
  bundle [("du.stdout.log", "RA procedure succeeded")]%string
         [("error_type", "invalid_value")]%string.

(** A list-valued stream, as the input format allows. *)
Definition list_valued_stream : log_data :=
  {| case_id := None;
     logs := Some [(U "du.stdout.log", StrList [U "line 1"; U "line 2"])];
     original_json_data := None |}.

(** [n] lines of a refused connection. *)
Fixpoint connect_lines (n : nat) : text :=
  match n with
  | O => []
  | S n' => U "connect() to 127.0.0.1:4043 failed, errno(111)" ++ [NL] ++ connect_lines n'
  end.

Definition ue_retries (n : nat) : log_data :=
  {| case_id := None;
     logs := Some [(U "ue.stdout.log", Str (connect_lines n))];
     original_json_data := None |}.

(** The same text under another key. *)
Definition retries_under_other_key : log_data :=
  {| case_id := None;
     logs := Some [(U "ue.stdout", Str (connect_lines 20))];
     original_json_data := None |}.

(** Two assertion lines, the scenario's second. *)
Definition two_assertions : log_data :=
  {| case_id := None;
     logs := Some [(U "du.stdout.log",
                    Str (U "Assertion (x) failed" ++ [NL] ++ scenario_assertion))];
     original_json_data := None |}.

(** The scenario's assertion line alone. *)
Definition assertion_scenario : log_data :=
  {| case_id := None;
     logs := Some [(U "du.stdout.log", Str scenario_assertion)];
     original_json_data := None |}.

(** A path for [analyze_file]. *)
Definition sample_path : Path :=
  {| path_str := U "op1/case_1.json";
     path_name := U "case_1.json";
     path_stem := U "case_1";
     path_parent_name := U "op1" |}.

(** A rejected connection among abnormal lines. *)
Definition ue_failure_with_errors : log_data :=
  bundle [("cu.stdout.log", "[NGAP] ERROR: unexpected message");
          ("ue.stdout.log", "[NAS] Registration reject, cause 7")]%string
         [("affected_module", "NAS")]%string.

(** Abnormal lines only. *)
Definition abnormal_only : log_data :=
  bundle [("du.stdout.log", "[MAC] timeout of timer T300 exceeded")]%string
         [("filename", "du_case_007.json")]%string.

(** Eleven refused connections and a success keyword. *)
Definition retries_with_success : log_data :=
  {| case_id := None;
     logs := Some [(U "ue.stdout.log",
                    Str (connect_lines 11 ++ U "RA procedure succeeded"))];
     original_json_data := None |}.

(** [n] refused connections reported in one line. *)
Fixpoint connect_reports (n : nat) : text :=
  match n with
  | O => []
  | S n' => U "connect() to 127.0.0.1:4043 failed, errno(111); " ++ connect_reports n'
  end.

Definition retries_on_one_line : log_data :=
  {| case_id := None;
     logs := Some [(U "ue.stdout.log", Str (connect_reports 12))];
     original_json_data := None |}.

(** A crash in the DU stream alone, and among two further streams. *)
Definition crash_alone : log_data :=
  bundle [("du.stdout.log", "Segmentation fault")]%string [].

Definition crash_among_streams : log_data :=
  bundle [("cu.stdout.log", "RRC_CONNECTED reached");
          ("du.stdout.log", "Segmentation fault");
          ("ue.stdout.log", "Received PDU Session Establishment Accept")]%string [].

(** The streams of [crash_after_success] in another order. *)
Definition crash_after_success_reordered : log_data :=
  bundle [("cu.stdout.log", "Segmentation fault (core dumped)");
          ("du.stdout.log", "RRC_CONNECTED reached");
          ("ue.stdout.log", "Received PDU Session Establishment Accept")]%string [].

(** Four files of a source tree: a crash, an unreadable file, a bundle
    with a list-valued stream, and a lone success keyword. *)
Definition sample_files : list source_file := [
  {| rel_path := U "op1/case_1.json";
     sf_loaded := Loaded crash_alone;
     copy_raises := None |};
  {| rel_path := U "op1/case_2.json";
     sf_loaded := LoadRaises (JSONDecodeError (U "Expecting value: line 1 column 1 (char 0)"));
     copy_raises := None |};
  {| rel_path := U "op1/case_3.json";
     sf_loaded := Loaded list_valued_stream;
     copy_raises := None |};
  {| rel_path := U "op1/case_4.json";
     sf_loaded := Loaded lone_success;
     copy_raises := None |}
].

Definition sample_entries : list dir_entry :=
  map (fun f => (sample_path, sf_loaded f)) sample_files.

(** ** Text lemmas *)

Lemma starts_with_app (l s : text) : starts_with l (l ++ s) = true.
Proof.
  induction l as [|x l IH]; simpl; [reflexivity|].
  now rewrite N.eqb_refl.
Qed.

Lemma starts_with_split (l s : text) :
  starts_with l s = true -> exists post, s = l ++ post.
Proof.
  revert s; induction l as [|x l IH]; intros s H.
  - now exists s.
  - destruct s as [|y s]; simpl in H; [discriminate|].
    apply andb_true_iff in H as [Hxy Hl].
    apply N.eqb_eq in Hxy; subst y.
    destruct (IH _ Hl) as [post ->].
    now exists post.
Qed.

Lemma contains_here (l s : text) : starts_with l s = true -> contains l s = true.
Proof. intros H. destruct s; cbn [contains]; now rewrite H. Qed.

Lemma contains_app (pre l post : text) : contains l (pre ++ l ++ post) = true.
Proof.
  induction pre as [|c pre IH].
  - change ([] ++ l ++ post) with (l ++ post).
    apply contains_here, starts_with_app.
  - change ((c :: pre) ++ l ++ post) with (c :: (pre ++ l ++ post)).
    cbn [contains]. rewrite IH. apply orb_true_r.
Qed.

Lemma contains_split (l s : text) :
  contains l s = true -> exists pre post, s = pre ++ l ++ post.
Proof.
  induction s as [|c s IH]; cbn [contains]; intros H;
    apply orb_true_iff in H as [H|H].
  - destruct (starts_with_split _ _ H) as [post ->]. now exists [], post.
  - discriminate.
  - destruct (starts_with_split _ _ H) as [post ->]. now exists [], post.
  - destruct (IH H) as (pre & post & ->). now exists (c :: pre), post.
Qed.

Lemma span_app (l r : text) : span (l ++ r) r = l.
Proof.
  unfold span. rewrite length_app.
  replace (length l + length r - length r)%nat with (length l) by lia.
  rewrite firstn_app, firstn_all, Nat.sub_diag. simpl. apply app_nil_r.
Qed.

(** ** The matcher *)

Lemma chr_matches_refl (ic : bool) (c : N) : chr_matches ic c c = true.
Proof. destruct ic; apply N.eqb_refl. Qed.

(** A literal prefix of the pattern consumes its own text. *)
Lemma match_here_lit_app (ic : bool) (l : text) (re : regex) (s : text) :
  match_here isdecimal ic (lit l ++ re) (l ++ s) = match_here isdecimal ic re s.
Proof.
  induction l as [|c l IH]; [reflexivity|].
  cbn [lit map app match_here atom_matches].
  now rewrite chr_matches_refl.
Qed.

(** A case-sensitive literal prefix of the pattern is a prefix of the text. *)
Lemma match_here_lit_head (l : text) (re : regex) (s : text) r :
  match_here isdecimal false (lit l ++ re) s = Some r ->
  exists s', s = l ++ s' /\ match_here isdecimal false re s' = Some r.
Proof.
  revert s; induction l as [|c l IH]; intros s H.
  - now exists s.
  - destruct s as [|y s]; cbn [lit map app match_here atom_matches chr_matches] in H;
      [discriminate|].
    destruct (c =? y)%N eqn:E; [|discriminate].
    apply N.eqb_eq in E; subst y.
    destruct (IH _ H) as (s' & -> & Hs').
    now exists s'.
Qed.

(** The greedy star finds a match whenever some repetition count allows
    one. *)
Lemma match_here_star_complete (ic : bool) (a : atom) (re : regex) (mid s : text) :
  Forall (fun c => atom_matches isdecimal ic a c = true) mid ->
  match_here isdecimal ic re s <> None ->
  match_here isdecimal ic (Star a :: re) (mid ++ s) <> None.
Proof.
  intros Hmid Hre.
  induction Hmid as [|c mid Hc _ IH].
  - destruct s as [|c s]; cbn [app]; [exact Hre|].
    change (match_here isdecimal ic (Star a :: re) (c :: s))
      with (if atom_matches isdecimal ic a c
            then match match_here isdecimal ic (Star a :: re) s with
                 | Some r => Some r
                 | None => match_here isdecimal ic re (c :: s)
                 end
            else match_here isdecimal ic re (c :: s)).
    destruct (atom_matches isdecimal ic a c); [|exact Hre].
    destruct (match_here isdecimal ic (Star a :: re) s); [discriminate|exact Hre].
  - change (match_here isdecimal ic (Star a :: re) ((c :: mid) ++ s))
      with (if atom_matches isdecimal ic a c
            then match match_here isdecimal ic (Star a :: re) (mid ++ s) with
                 | Some r => Some r
                 | None => match_here isdecimal ic re (c :: mid ++ s)
                 end
            else match_here isdecimal ic re (c :: mid ++ s)).
    rewrite Hc.
    destruct (match_here isdecimal ic (Star a :: re) (mid ++ s)); [discriminate|].
    now elim IH.
Qed.

(** A match consumes a prefix of the text it is tried on; when the pattern
    ends in a case-sensitive literal, that literal ends the prefix. *)
Lemma match_here_tail_lit (re : regex) (l : text) (s : text) marks rest :
  match_here isdecimal false (re ++ lit l) s = Some (marks, rest) ->
  exists pre, s = pre ++ l ++ rest.
Proof.
  revert s marks rest; induction re as [|[a|a|] re IH]; intros s marks rest H.
  - exists []. cbn [app] in *.
    rewrite <- (app_nil_r (lit l)) in H.
    destruct (match_here_lit_head _ _ _ _ H) as (s' & -> & Hs').
    cbn in Hs'. now inversion Hs'.
  - destruct s as [|c s]; cbn [app match_here] in H; [discriminate|].
    destruct (atom_matches isdecimal false a c); [|discriminate].
    destruct (IH _ _ _ H) as [pre ->]. now exists (c :: pre).
  - induction s as [|c s IHs].
    + apply (IH [] marks rest). exact H.
    + change (match_here isdecimal false ((Star a :: re) ++ lit l) (c :: s))
        with (if atom_matches isdecimal false a c
              then match match_here isdecimal false ((Star a :: re) ++ lit l) s with
                   | Some r => Some r
                   | None => match_here isdecimal false (re ++ lit l) (c :: s)
                   end
              else match_here isdecimal false (re ++ lit l) (c :: s)) in H.
      destruct (atom_matches isdecimal false a c); [|now apply (IH _ marks rest)].
      destruct (match_here isdecimal false ((Star a :: re) ++ lit l) s) as [r|] eqn:E.
      * inversion H; subst r. destruct (IHs eq_refl) as [pre ->].
        now exists (c :: pre).
      * now apply (IH _ marks rest).
  - cbn [app match_here] in H.
    destruct (match_here isdecimal false (re ++ lit l) s) as [[marks' rest']|] eqn:E;
      [|discriminate].
    inversion H; subst. now apply (IH _ marks' rest).
Qed.

(** ** [re.search] *)

Lemma search_from_here (ic : bool) (re : regex) (s : text) :
  match_here isdecimal ic re s <> None ->
  is_match (search_from isdecimal ic re s) = true.
Proof.
  intros H. destruct s; cbn [search_from];
    destruct (match_here isdecimal ic re _) as [[? ?]|]; try reflexivity; now elim H.
Qed.

Lemma search_from_cons (ic : bool) (re : regex) (c : N) (s : text) :
  is_match (search_from isdecimal ic re s) = true ->
  is_match (search_from isdecimal ic re (c :: s)) = true.
Proof.
  intros H. cbn [search_from].
  now destruct (match_here isdecimal ic re (c :: s)) as [[? ?]|].
Qed.

Lemma search_from_app (ic : bool) (re : regex) (pre s : text) :
  is_match (search_from isdecimal ic re s) = true ->
  is_match (search_from isdecimal ic re (pre ++ s)) = true.
Proof.
  intros H. induction pre as [|c pre IH]; [exact H|].
  now apply search_from_cons.
Qed.

(** The search skips the offsets at which the pattern does not match. *)
Lemma search_from_skip (ic : bool) (re : regex) (pre s : text) :
  (forall i, (i < length pre)%nat ->
             match_here isdecimal ic re (skipn i (pre ++ s)) = None) ->
  search_from isdecimal ic re (pre ++ s) = search_from isdecimal ic re s.
Proof.
  induction pre as [|c pre IH]; intros H; [reflexivity|].
  assert (H0 := H 0%nat ltac:(simpl; lia)).
  cbn [app skipn] in H0. cbn [app search_from]. rewrite H0.
  apply IH. intros i Hi.
  assert (Hi' := H (S i) ltac:(simpl; lia)). exact Hi'.
Qed.

(** A successful search stands on a suffix of the text. *)
Lemma search_from_sound (ic : bool) (re : regex) (s : text) (m : match_obj) :
  search_from isdecimal ic re s = Some m ->
  (exists pre, s = pre ++ m_start m) /\
  match_here isdecimal ic re (m_start m) = Some (m_marks m, m_end m).
Proof.
  induction s as [|c s IH]; cbn [search_from].
  - destruct (match_here isdecimal ic re []) as [[marks rest]|] eqn:E; intros H;
      [|discriminate].
    injection H as <-. split; [now exists []|exact E].
  - destruct (match_here isdecimal ic re (c :: s)) as [[marks rest]|] eqn:E; intros H.
    + injection H as <-. split; [now exists []|exact E].
    + destruct (IH H) as [[pre ->] Hm]. split; [now exists (c :: pre)|exact Hm].
Qed.

(** A literal pattern finds every occurrence of its text, whatever the
    flags. *)
Lemma search_lit_complete (ic : bool) (l s : text) :
  contains l s = true ->
  is_match (search_from isdecimal ic (lit l) s) = true.
Proof.
  intros H. destruct (contains_split _ _ H) as (pre & post & ->).
  apply search_from_app, search_from_here.
  rewrite <- (app_nil_r (lit l)), match_here_lit_app. discriminate.
Qed.

(** Every pattern of the program lies in the fragment [re_compile] reads. *)
Lemma program_patterns_compile :
  Forall (fun pattern => re_compile pattern <> None)
    (crash_patterns ++ abnormal_patterns ++ ue_failure_patterns ++ success_patterns
       ++ [U "Assertion \(([^)]+)\) failed"; U "IPv4\s+[\d\.]+";
           U "connect\(\).*failed"]).
Proof. repeat constructor; vm_compute; discriminate. Qed.

(** ** [check_patterns] *)

Lemma check_patterns_loop_filter (s : text) (patterns matches : list text) :
  check_patterns_loop s patterns matches =
  matches ++ filter (fun p => is_match (re_search p s ignorecase_multiline)) patterns.
Proof.
  revert matches; induction patterns as [|p ps IH]; intros matches; cbn [check_patterns_loop filter].
  - now rewrite app_nil_r.
  - rewrite IH. destruct (is_match _); [now rewrite <- app_assoc|reflexivity].
Qed.

Lemma check_patterns_matches (s : text) (patterns : list text) :
  snd (check_patterns s patterns) =
  filter (fun p => is_match (re_search p s ignorecase_multiline)) patterns.
Proof. unfold check_patterns. cbn [snd]. apply check_patterns_loop_filter. Qed.

(** A tier fires exactly when one of its patterns is found. *)
Lemma tier_fires_iff (s : text) (patterns : list text) :
  tier_fires s patterns = true <->
  exists p, In p patterns /\ is_match (re_search p s ignorecase_multiline) = true.
Proof.
  unfold tier_fires, check_patterns. cbn [fst].
  rewrite check_patterns_loop_filter. cbn [app].
  split.
  - intros H. destruct (filter _ patterns) as [|p l] eqn:E; [discriminate|].
    exists p.
    apply (filter_In (fun p => is_match (re_search p s ignorecase_multiline))).
    rewrite E. now left.
  - intros (p & Hin & Hp).
    assert (Hf : In p (filter (fun p => is_match (re_search p s ignorecase_multiline)) patterns))
      by now apply filter_In.
    destruct (filter _ patterns); [easy|reflexivity].
Qed.

Lemma check_patterns_eta (s : text) (patterns : list text) :
  check_patterns s patterns = (tier_fires s patterns, snd (check_patterns s patterns)).
Proof. unfold tier_fires. now destruct (check_patterns s patterns). Qed.

(** ** Walking the cascade *)

(** Enter the body of [classify_severity] on a bundle whose corpus is known,
    and name the four tier tests. *)
Ltac enter_cascade Hc all_logs :=
  unfold classify_severity, fired_rule;
  unfold corpus in Hc; rewrite Hc; cbn [bind];
  try rewrite (check_patterns_eta all_logs crash_patterns);
  try rewrite (check_patterns_eta all_logs success_patterns);
  try rewrite (check_patterns_eta all_logs ue_failure_patterns);
  try rewrite (check_patterns_eta all_logs abnormal_patterns);
  cbn [fst];
  fold (tier_fires all_logs crash_patterns);
  fold (tier_fires all_logs success_patterns);
  fold (tier_fires all_logs ue_failure_patterns);
  fold (tier_fires all_logs abnormal_patterns).

(** The first return statement: a firing Crash tier decides the verdict. *)
Lemma crash_tier_verdict (log_data : log_data) (all_logs : text) :
  corpus log_data = Return all_logs ->
  tier_fires all_logs crash_patterns = true ->
  exists root_cause evidence,
    classify_severity log_data = Return (ComponentCrash, root_cause, evidence, 0.95).
Proof.
  intros Hc Hf.
  unfold classify_severity. unfold corpus in Hc. rewrite Hc. cbn [bind].
  rewrite (check_patterns_eta all_logs crash_patterns), Hf.
  eexists _, _. reflexivity.
Qed.

(** A pattern made of literal characters finds the text it spells. *)
Lemma re_search_literal (p s : text) (flags : re_flags) :
  re_compile p = Some (lit p) ->
  contains p s = true ->
  is_match (re_search p s flags) = true.
Proof.
  intros Hp Hs. unfold re_search. rewrite Hp.
  now apply search_lit_complete.
Qed.

(** Two of the four sub-signals bring one of the three keywords, and each
    keyword is a Success-tier pattern. *)
Lemma corroborated_success_fires (all_logs : text) :
  (2 <= success_signal_count all_logs)%nat ->
  tier_fires all_logs success_patterns = true.
Proof.
  unfold success_signal_count, sum_bools. intros H.
  apply tier_fires_iff.
  destruct (contains (U "PDU Session Establishment Accept") all_logs) eqn:Hpdu.
  { exists (U "PDU Session Establishment Accept"). split.
    - cbn [success_patterns map In]. left; reflexivity.
    - apply re_search_literal; [vm_compute; reflexivity|exact Hpdu]. }
  destruct (contains (U "RRC_CONNECTED reached") all_logs) eqn:Hrrc.
  { exists (U "RRC_CONNECTED reached"). split.
    - cbn [success_patterns map In]. do 2 right; left; reflexivity.
    - apply re_search_literal; [vm_compute; reflexivity|exact Hrrc]. }
  destruct (contains (U "CBRA procedure succeeded") all_logs) eqn:Hcbra.
  { exists (U "CBRA procedure succeeded"). split.
    - cbn [success_patterns map In]. do 3 right; left; reflexivity.
    - apply re_search_literal; [vm_compute; reflexivity|exact Hcbra]. }
  exfalso. destruct (is_match _); cbn [filter length] in H; lia.
Qed.

(** ** The rule behind a verdict *)

Lemma Return_inj {A : Type} (a b : A) : Return a = Return b -> a = b.
Proof. intros H. now injection H. Qed.

Ltac settle r :=
  let H := fresh "H" in
  intros H; apply Return_inj in H; subst; exists r;
  split; [reflexivity|split; reflexivity].

(** Every verdict is the tuple of the return statement [fired_rule] names.
    The eight rules differ pairwise in severity or confidence, so the rule is
    the only one that fits the verdict. *)
Lemma classify_fired (log_data : log_data) (v : verdict) :
  classify_severity log_data = Return v ->
  exists r, fired_rule log_data = Return r
            /\ severity_stage v = rule_severity r
            /\ confidence v = rule_confidence r.
Proof.
  unfold classify_severity, fired_rule.
  destruct (match logs log_data with Some items => combine_logs items [] | None => Return [] end)
    as [all_logs|e]; cbn [bind]; [|discriminate].
  rewrite (check_patterns_eta all_logs crash_patterns).
  rewrite (check_patterns_eta all_logs success_patterns).
  rewrite (check_patterns_eta all_logs ue_failure_patterns).
  rewrite (check_patterns_eta all_logs abnormal_patterns).
  cbn [fst].
  destruct (tier_fires all_logs crash_patterns); [settle CrashRule|].
  destruct (tier_fires all_logs success_patterns && (2 <=? _)%nat);
    [settle SuccessRule|].
  destruct (tier_fires all_logs ue_failure_patterns); [settle UEFailureRule|].
  destruct (tier_fires all_logs abnormal_patterns); [settle AbnormalRule|].
  destruct (py_in _ _ && py_in _ _).
  - destruct (tier_fires all_logs success_patterns); cbn [negb bind].
    + destruct (truthy _ && negb _); [settle MetadataRule|settle ResidualSuccessRule].
    + destruct (dict_get _ _ _) as [s|lines]; cbn [len_findall bind]; [|discriminate].
      destruct (10 <? _)%nat; cbn [bind]; [settle RepeatedConnectRule|].
      destruct (truthy _ && negb _); [settle MetadataRule|settle UncertainRule].
  - cbn [bind].
    destruct (truthy _ && negb _); [settle MetadataRule|].
    destruct (tier_fires all_logs success_patterns);
      [settle ResidualSuccessRule|settle UncertainRule].
Qed.

(** The repeated-connection rule fires exactly above ten occurrences. *)
Lemma repeated_connection_rule (log_data : log_data) (all_logs ue_log : text) :
  corpus log_data = Return all_logs ->
  tier_fires all_logs crash_patterns = false ->
  tier_fires all_logs success_patterns = false ->
  tier_fires all_logs ue_failure_patterns = false ->
  tier_fires all_logs abnormal_patterns = false ->
  ue_log_of log_data = Str ue_log ->
  contains (U "connect() to") ue_log = true ->
  contains (U "failed, errno") ue_log = true ->
  let n := connect_failure_count ue_log in
  if (10 <? n)%nat then
    classify_severity log_data =
      Return (ConnectionFailure,
              U "UE 連線失敗：UE 無法連接到 DU (重試 " ++ str_of_nat n ++ U " 次)",
              [str_of_nat n ++ U " connection attempts failed"],
              0.80)
    /\ fired_rule log_data = Return RepeatedConnectRule
  else
    (fired_rule log_data = Return MetadataRule
     \/ fired_rule log_data = Return UncertainRule)
    /\ exists v, classify_severity log_data = Return v
                 /\ (confidence v = 0.50 \/ confidence v = 0.30).
Proof.
  intros Hc Hcrash Hsucc Hue Habn Hlog Hto Herrno n.
  unfold ue_log_of in Hlog. subst n. unfold connect_failure_count.
  enter_cascade Hc all_logs.
  rewrite Hcrash, Hsucc, Hue, Habn, Hlog.
  cbn [andb negb py_in len_findall bind]. rewrite Hto, Herrno. cbn [andb bind].
  destruct (10 <? _)%nat; cbn [bind].
  - split; reflexivity.
  - destruct (truthy _ && negb _).
    + split; [now left|]. eexists. split; [reflexivity|now left].
    + split; [now right|]. eexists. split; [reflexivity|now right].
Qed.

(** ** The assertion expression *)

Lemma search_from_at (ic : bool) (re : regex) (s : text) marks rest :
  match_here isdecimal ic re s = Some (marks, rest) ->
  search_from isdecimal ic re s =
    Some {| m_start := s; m_marks := marks; m_end := rest |}.
Proof. intros H. destruct s; cbn [search_from]; now rewrite H. Qed.

Lemma contains_app_r (l pre s : text) :
  contains l s = true -> contains l (pre ++ s) = true.
Proof.
  intros H. destruct (contains_split _ _ H) as (p & q & ->).
  rewrite app_assoc. apply contains_app.
Qed.

(** The extraction pattern, compiled. *)
Lemma assertion_pattern_compiled :
  re_compile (U "Assertion \(([^)]+)\) failed") =
  Some (lit (U "Assertion (")
          ++ [Mark; One (CharSet true [SChr 41]); Star (CharSet true [SChr 41]); Mark]
          ++ lit (U ") failed")).
Proof. vm_compute. reflexivity. Qed.

(** A text the extraction pattern matches holds both tokens of the guard. *)
Lemma assertion_match_tokens (s : text) (m : match_obj) :
  re_search (U "Assertion \(([^)]+)\) failed") s no_flags = Some m ->
  contains (U "Assertion") s = true /\ contains (U "failed") s = true.
Proof.
  unfold re_search. rewrite assertion_pattern_compiled.
  cbn [IGNORECASE no_flags]. intros H.
  destruct (search_from_sound _ _ _ _ H) as [[pre ->] Hm]. split; apply contains_app_r.
  - change (lit (U "Assertion (")) with (lit (U "Assertion") ++ lit (U " (")) in Hm.
    rewrite <- app_assoc in Hm.
    destruct (match_here_lit_head _ _ _ _ Hm) as (s' & -> & _).
    apply (contains_app [] (U "Assertion") s').
  - change (lit (U ") failed")) with (lit (U ") ") ++ lit (U "failed")) in Hm.
    rewrite !app_assoc in Hm.
    destruct (match_here_tail_lit _ _ _ _ _ Hm) as [p ->].
    apply contains_app.
Qed.

(** The scenario's line matches the extraction pattern where it stands, and
    the group is the expression between its parentheses. *)
Lemma scenario_assertion_match (post : text) :
  exists m,
    search_from isdecimal false
      (lit (U "Assertion (")
         ++ [Mark; One (CharSet true [SChr 41]); Star (CharSet true [SChr 41]); Mark]
         ++ lit (U ") failed"))
      (scenario_assertion ++ post) = Some m
    /\ group1 m = scenario_expression.
Proof.
  exists {| m_start := scenario_assertion ++ post;
            m_marks := [scenario_expression ++ (U ") failed!" ++ post);
                        U ") failed!" ++ post];
            m_end := U "!" ++ post |}.
  split.
  - apply search_from_at. vm_compute. reflexivity.
  - apply span_app.
Qed.

(** The scenario's line is a Crash-tier match wherever it stands. *)
Lemma scenario_assertion_is_crash (pre post : text) :
  tier_fires (pre ++ scenario_assertion ++ post) crash_patterns = true.
Proof.
  apply tier_fires_iff. exists (U "Assertion.*failed"). split.
  - cbn [crash_patterns map In]. left; reflexivity.
  - unfold re_search.
    replace (re_compile (U "Assertion.*failed"))
      with (Some (lit (U "Assertion") ++ Star AnyChar :: lit (U "failed")))
      by (vm_compute; reflexivity).
    apply search_from_app, search_from_here.
    replace (scenario_assertion ++ post)
      with (U "Assertion"
              ++ U " (num_tx >= config.pdsch_AntennaPorts.XP) "
              ++ U "failed" ++ (U "!" ++ post))
      by (vm_compute; reflexivity).
    rewrite match_here_lit_app.
    apply match_here_star_complete.
    + apply Forall_forall. intros c Hc. cbn [atom_matches].
      assert (A : forallb (fun c => negb (c =? NL)%N)
                    (U " (num_tx >= config.pdsch_AntennaPorts.XP) ") = true)
        by (vm_compute; reflexivity).
      rewrite forallb_forall in A. now apply A.
    + rewrite <- (app_nil_r (lit (U "failed"))), match_here_lit_app. discriminate.
Qed.

(** ** Streams given as lists *)

Lemma combine_logs_text (items : dict log_content) (acc : text) :
  (forall key content, In (key, content) items -> exists s, content = Str s) ->
  exists all_logs, combine_logs items acc = Return all_logs.
Proof.
  revert acc; induction items as [|[k c] items IH]; intros acc H.
  - now exists acc.
  - destruct (H k c (or_introl eq_refl)) as [s ->]. cbn [combine_logs].
    apply IH. intros key content Hin. apply (H key content). now right.
Qed.

Lemma dict_lookup_In {V : Type} (d : dict V) (key : text) (v : V) :
  dict_lookup d key = Some v -> exists k, In (k, v) d.
Proof.
  induction d as [|[k w] d IH]; cbn [dict_lookup]; [discriminate|].
  destruct (text_eqb k key).
  - intros H; injection H as ->. exists k. now left.
  - intros H. destruct (IH H) as [k' Hk']. exists k'. now right.
Qed.

(** On bundles whose streams are all [str], the classifier returns. *)
Lemma classify_total_on_text (log_data : log_data) :
  text_streams log_data ->
  exists v, classify_severity log_data = Return v.
Proof.
  unfold text_streams. intros H.
  assert (Hc : exists all_logs, corpus log_data = Return all_logs).
  { unfold corpus. destruct (logs log_data) as [items|]; [|now exists []].
    apply combine_logs_text. intros key content. now apply H. }
  assert (Hue : exists s, ue_log_of log_data = Str s).
  { unfold ue_log_of, dict_get.
    destruct (dict_lookup _ _) as [c|] eqn:E; [|now exists []].
    destruct (logs log_data) as [items|]; [|discriminate].
    destruct (dict_lookup_In _ _ _ E) as [k Hk]. exact (H items k c eq_refl Hk). }
  destruct Hc as [all_logs Hc]. destruct Hue as [ue_log Hue].
  unfold ue_log_of in Hue.
  unfold classify_severity. unfold corpus in Hc. rewrite Hc, Hue. cbn [bind].
  rewrite (check_patterns_eta all_logs crash_patterns).
  rewrite (check_patterns_eta all_logs success_patterns).
  rewrite (check_patterns_eta all_logs ue_failure_patterns).
  rewrite (check_patterns_eta all_logs abnormal_patterns).
  cbn [fst].
  destruct (tier_fires all_logs crash_patterns); [eexists; reflexivity|].
  destruct (tier_fires all_logs success_patterns && (2 <=? _)%nat);
    [eexists; reflexivity|].
  destruct (tier_fires all_logs ue_failure_patterns); [eexists; reflexivity|].
  destruct (tier_fires all_logs abnormal_patterns); [eexists; reflexivity|].
  cbn [len_findall bind].
  destruct (py_in _ _ && py_in _ _);
    [destruct (negb _); cbn [bind]; [destruct (10 <? _)%nat|]|];
    cbn [bind]; try (eexists; reflexivity);
    (destruct (truthy _ && negb _); [eexists; reflexivity|]);
    (destruct (tier_fires all_logs success_patterns); eexists; reflexivity).
Qed.

(** ** The claims *)

(** C1. Crash precedence: when a Crash-tier pattern is found in the corpus,
    the verdict is ComponentCrash (1) with confidence 0.95, whatever else the
    corpus matches. *)
Theorem crash_precedence (log_data : log_data) (all_logs pattern : text) :
  corpus log_data = Return all_logs ->
  In pattern crash_patterns ->
  is_match (re_search pattern all_logs ignorecase_multiline) = true ->
  exists root_cause evidence,
    classify_severity log_data = Return (ComponentCrash, root_cause, evidence, 0.95).
Proof.
  intros Hc Hin Hm.
  apply (crash_tier_verdict log_data all_logs Hc).
  apply tier_fires_iff. eauto.
Qed.

(** C2, as amended. In the uncertain terminal case the verdict carries the
    severity 0, the integer of NoError, with confidence 0.30 and the evidence
    marker "Insufficient log information". *)
Theorem uncertain_case_verdict (log_data : log_data) :
  uncertain_input log_data ->
  classify_severity log_data =
    Return (NoError,
            U "無法判斷：log 資訊不足以明確分類，檔案 " ++ filename_of log_data,
            [U "Insufficient log information"],
            0.30)
  /\ fired_rule log_data = Return UncertainRule.
Proof.
  intros (all_logs & ue_log & Hc & Hcrash & Hsucc & Hue & Habn & Hlog & Hrep & Hty).
  unfold repeated_connection_heuristic, connect_failure_count in Hrep.
  unfold ue_log_of in Hlog. unfold error_type_of in Hty.
  split.
  - enter_cascade Hc all_logs.
    rewrite Hcrash, Hsucc, Hue, Habn, Hlog, Hty. cbn [andb negb py_in len_findall bind].
    destruct (contains (U "connect() to") ue_log && contains (U "failed, errno") ue_log);
      cbn [andb] in Hrep |- *; [rewrite Hrep|]; reflexivity.
  - enter_cascade Hc all_logs.
    rewrite Hcrash, Hsucc, Hue, Habn, Hlog, Hty. cbn [andb negb py_in len_findall bind].
    destruct (contains (U "connect() to") ue_log && contains (U "failed, errno") ue_log);
      cbn [andb] in Hrep |- *; [rewrite Hrep|]; reflexivity.
Qed.

(** C3. Success corroboration: with no Crash-tier match and at least two of
    the four success sub-signals, the verdict is NoError (0) with confidence
    0.90; its evidence is the matched Success-tier patterns, followed by the
    matched IPv4 literal when there is one. *)
Theorem success_corroboration (log_data : log_data) (all_logs : text) :
  corpus log_data = Return all_logs ->
  tier_fires all_logs crash_patterns = false ->
  (2 <= success_signal_count all_logs)%nat ->
  classify_severity log_data =
    Return (NoError,
            U "無錯誤：在 " ++ filename_of log_data
              ++ U " 中 UE 成功建立連線並獲取 IP，所有主要流程正常完成",
            snd (check_patterns all_logs success_patterns)
              ++ match re_search (U "IPv4\s+[\d\.]+") all_logs no_flags with
                 | Some m => [U "IPv4配置成功: " ++ group0 m]
                 | None => []
                 end,
            0.90).
Proof.
  intros Hc Hcrash Hcount.
  assert (Hsucc := corroborated_success_fires _ Hcount).
  apply Nat.leb_le in Hcount. unfold success_signal_count in Hcount.
  enter_cascade Hc all_logs.
  rewrite Hcrash, Hsucc, Hcount. cbn [andb app].
  unfold filename_of, NoError.
  destruct (re_search (U "IPv4\s+[\d\.]+") all_logs no_flags);
    [reflexivity|now rewrite app_nil_r].
Qed.

(** C4, as amended. Residual success: a Success-tier match short of
    corroboration, with no Crash-, ConnectionFailure- or Abnormal-tier match
    and an empty metadata [error_type], gives NoError with confidence 0.70. *)
Theorem residual_success (log_data : log_data) :
  lone_success_input log_data ->
  error_type_of log_data = [] ->
  exists root_cause evidence,
    classify_severity log_data = Return (NoError, root_cause, evidence, 0.70)
    /\ fired_rule log_data = Return ResidualSuccessRule.
Proof.
  intros (all_logs & Hc & Hsucc & Hcount & Hcrash & Hue & Habn) Hty.
  apply Nat.leb_gt in Hcount. unfold success_signal_count in Hcount.
  unfold error_type_of in Hty.
  eexists _, _. split.
  - enter_cascade Hc all_logs.
    rewrite Hcrash, Hsucc, Hcount, Hue, Habn, Hty. cbn [andb negb].
    destruct (py_in _ _ && py_in _ _); reflexivity.
  - enter_cascade Hc all_logs.
    rewrite Hcrash, Hsucc, Hcount, Hue, Habn, Hty. cbn [andb negb].
    destruct (py_in _ _ && py_in _ _); reflexivity.
Qed.

(** C5. Strict threshold: on a bundle that reaches the heuristic, whose UE
    stream holds both markers and whose corpus has no Success-tier match, ten
    occurrences of the connect-failure pattern leave the rule silent (the
    verdict is that of the metadata fallback or of the uncertain case), and
    eleven fire it: ConnectionFailure (3), confidence 0.80, the count as
    evidence. *)
Theorem repeated_connection_threshold (log_data : log_data) (all_logs ue_log : text) :
  corpus log_data = Return all_logs ->
  tier_fires all_logs crash_patterns = false ->
  tier_fires all_logs success_patterns = false ->
  tier_fires all_logs ue_failure_patterns = false ->
  tier_fires all_logs abnormal_patterns = false ->
  ue_log_of log_data = Str ue_log ->
  contains (U "connect() to") ue_log = true ->
  contains (U "failed, errno") ue_log = true ->
  (connect_failure_count ue_log = 10%nat ->
     fired_rule log_data <> Return RepeatedConnectRule
     /\ exists v, classify_severity log_data = Return v
                  /\ (confidence v = 0.50 \/ confidence v = 0.30))
  /\
  (connect_failure_count ue_log = 11%nat ->
     classify_severity log_data =
       Return (ConnectionFailure,
               U "UE 連線失敗：UE 無法連接到 DU (重試 11 次)",
               [U "11 connection attempts failed"],
               0.80)
     /\ fired_rule log_data = Return RepeatedConnectRule).
Proof.
  intros Hc Hcrash Hsucc Hue Habn Hlog Hto Herrno.
  assert (R := repeated_connection_rule _ _ _ Hc Hcrash Hsucc Hue Habn Hlog Hto Herrno).
  cbv zeta in R.
  split; intros Hn; rewrite Hn in R.
  - change (10 <? 10)%nat with false in R. cbv iota in R.
    destruct R as [[R|R] Hv]; (split; [rewrite R; discriminate|exact Hv]).
  - change (10 <? 11)%nat with true in R. cbv iota in R.
    destruct R as [R1 R2]. split; [|exact R2].
    rewrite R1. vm_compute. reflexivity.
Qed.

(** C6, as amended. On every bundle whose streams are all [str], with any
    subset of the streams and of the metadata fields present,
    [classify_severity] returns a verdict and raises nothing; the severity of
    the verdict is among 0, 1, 2, 3. *)
Theorem total_on_text_streams (log_data : log_data) :
  text_streams log_data ->
  exists v, classify_severity log_data = Return v
            /\ (0 <= severity_stage v <= 3)%Z.
Proof.
  intros Htext. destruct (classify_total_on_text log_data Htext) as [v Hv].
  exists v. split; [exact Hv|].
  destruct (classify_fired _ _ Hv) as (r & _ & -> & _).
  destruct r; cbn [rule_severity]; lia.
Qed.

(** C7, as amended. In the crash branch, a match of
    [Assertion \(([^)]+)\) failed] appends "Assertion: " followed by the
    group of the leftmost match to the evidence.  Every corpus that holds the
    scenario's line gets ComponentCrash with confidence 0.95; when no match
    of the pattern starts before that line, the appended entry is
    "Assertion: num_tx >= config.pdsch_AntennaPorts.XP". *)
Theorem assertion_extraction (log_data : log_data) (all_logs : text) :
  corpus log_data = Return all_logs ->
  (forall m,
     tier_fires all_logs crash_patterns = true ->
     re_search (U "Assertion \(([^)]+)\) failed") all_logs no_flags = Some m ->
     exists root_cause,
       classify_severity log_data =
         Return (ComponentCrash, root_cause,
                 snd (check_patterns all_logs crash_patterns)
                   ++ [U "Assertion: " ++ group1 m],
                 0.95))
  /\
  (forall pre post,
     all_logs = pre ++ scenario_assertion ++ post ->
     (exists root_cause evidence,
        classify_severity log_data =
          Return (ComponentCrash, root_cause, evidence, 0.95))
     /\
     ((forall i, (i < length pre)%nat ->
                 matches_at (U "Assertion \(([^)]+)\) failed") all_logs i = false) ->
      exists root_cause,
        classify_severity log_data =
          Return (ComponentCrash, root_cause,
                  snd (check_patterns all_logs crash_patterns)
                    ++ [U "Assertion: " ++ scenario_expression],
                  0.95))).
Proof.
  intros Hc.
  assert (General : forall m,
     tier_fires all_logs crash_patterns = true ->
     re_search (U "Assertion \(([^)]+)\) failed") all_logs no_flags = Some m ->
     exists root_cause,
       classify_severity log_data =
         Return (ComponentCrash, root_cause,
                 snd (check_patterns all_logs crash_patterns)
                   ++ [U "Assertion: " ++ group1 m],
                 0.95)).
  { intros m Hcrash Hm.
    destruct (assertion_match_tokens _ _ Hm) as [Ha Hf].
    unfold classify_severity. unfold corpus in Hc. rewrite Hc. cbn [bind].
    rewrite (check_patterns_eta all_logs crash_patterns), Hcrash.
    rewrite Ha, Hf, Hm. cbn [andb app].
    eexists. reflexivity. }
  split; [exact General|].
  intros pre post ->.
  assert (Hcrash := scenario_assertion_is_crash pre post).
  split.
  - exact (crash_tier_verdict _ _ Hc Hcrash).
  - intros Hleft.
    destruct (scenario_assertion_match post) as (m & Hm & Hg).
    rewrite <- Hg. apply General; [exact Hcrash|].
    unfold re_search. rewrite assertion_pattern_compiled.
    cbn [IGNORECASE no_flags].
    rewrite search_from_skip; [exact Hm|].
    intros i Hi. specialize (Hleft i Hi).
    unfold matches_at in Hleft. rewrite assertion_pattern_compiled in Hleft.
    now destruct (match_here _ _ _ _).
Qed.

(** C8. On a file that cannot be read or parsed, [analyze_file] returns the
    ProcessingError record: severity -1, outside 0..3, confidence 0.0; the
    record is the same whatever the classifier is, which is never called. *)
Theorem analyze_file_load_failure (filepath : Path) (e : exception) :
  analyze_file filepath (LoadRaises e) =
    {| r_case_id := path_str filepath;
       r_severity_stage := ProcessingError;
       r_root_cause_summary := U "Error processing file: " ++ str_of_exception e;
       r_evidence_keywords := [str_of_exception e];
       r_component := U "Error";
       r_confidence := 0.0 |}
  /\ ~ (0 <= r_severity_stage (analyze_file filepath (LoadRaises e)) <= 3)%Z
  /\ r_confidence (analyze_file filepath (LoadRaises e)) == 0
  /\ forall classify,
       analyze_file_with classify filepath (LoadRaises e)
       = analyze_file filepath (LoadRaises e).
Proof.
  repeat split.
  cbn [analyze_file analyze_file_with bind r_severity_stage]. lia.
Qed.

(** C9. The confidence of a verdict is one of the seven constants
    0.95, 0.90, 0.85, 0.80, 0.70, 0.50, 0.30, lies in [0,1], and is the
    constant of the rule that fired. *)
Theorem confidence_is_rule_constant (log_data : log_data) (v : verdict) :
  classify_severity log_data = Return v ->
  In (confidence v) confidence_constants
  /\ 0 <= confidence v <= 1
  /\ exists r, fired_rule log_data = Return r /\ confidence v = rule_confidence r.
Proof.
  intros H. destruct (classify_fired _ _ H) as (r & Hr & _ & Hconf).
  rewrite Hconf. repeat split.
  - destruct r; cbn [rule_confidence confidence_constants In]; tauto.
  - destruct r; cbn [rule_confidence]; unfold Qle; cbn; lia.
  - destruct r; cbn [rule_confidence]; unfold Qle; cbn; lia.
  - now exists r.
Qed.

(** C10. The heuristic reads the stream under the key "ue.stdout.log" and no
    other: when that key is absent, or its stream lacks "connect() to" or
    lacks "failed, errno", the rule does not fire, whatever the other streams
    hold. *)
Theorem ue_stream_key_specificity (log_data : log_data) :
  dict_lookup (match logs log_data with Some items => items | None => [] end)
              (U "ue.stdout.log") = None
  \/ py_in (U "connect() to") (ue_log_of log_data) = false
  \/ py_in (U "failed, errno") (ue_log_of log_data) = false ->
  fired_rule log_data <> Return RepeatedConnectRule
  /\ forall v, classify_severity log_data = Return v ->
               ~ confidence v == 0.80.
Proof.
  intros H.
  assert (Hin : py_in (U "connect() to") (ue_log_of log_data)
                && py_in (U "failed, errno") (ue_log_of log_data) = false).
  { destruct H as [H|[H|H]].
    - unfold ue_log_of, dict_get. rewrite H. reflexivity.
    - now rewrite H.
    - rewrite H. apply andb_false_r. }
  assert (Hfired : fired_rule log_data <> Return RepeatedConnectRule).
  { unfold fired_rule. fold (ue_log_of log_data). rewrite Hin.
    destruct (match logs log_data with Some items => combine_logs items [] | None => Return [] end);
      cbn [bind]; [|discriminate].
    repeat match goal with
           | |- context [if ?b then _ else _] => destruct b
           end; discriminate. }
  split; [exact Hfired|].
  intros v Hv. destruct (classify_fired _ _ Hv) as (r & Hr & _ & Hconf).
  rewrite Hconf.
  destruct r; try (now elim Hfired); cbn [rule_confidence]; unfold Qeq; cbn; lia.
Qed.

(** ** Further properties of the matcher *)

Lemma match_here_star_skip (ic : bool) (a : atom) (re : regex) (s : text) :
  match_here isdecimal ic re s <> None ->
  match_here isdecimal ic (Star a :: re) s <> None.
Proof. apply (match_here_star_complete ic a re [] s). constructor. Qed.

Lemma match_here_star_step (ic : bool) (a : atom) (re : regex) (c : N) (s : text) :
  match_here isdecimal ic (Star a :: re) (c :: s) =
  if atom_matches isdecimal ic a c
  then match match_here isdecimal ic (Star a :: re) s with
       | Some r => Some r
       | None => match_here isdecimal ic re (c :: s)
       end
  else match_here isdecimal ic re (c :: s).
Proof. reflexivity. Qed.

Lemma match_here_star_nil (ic : bool) (a : atom) (re : regex) :
  match_here isdecimal ic (Star a :: re) [] = match_here isdecimal ic re [].
Proof. reflexivity. Qed.

(** A match survives text added after it. *)
Lemma match_here_extend (ic : bool) (re : regex) (s post : text) :
  match_here isdecimal ic re s <> None ->
  match_here isdecimal ic re (s ++ post) <> None.
Proof.
  revert s; induction re as [|[a|a|] re IH]; intros s H.
  - discriminate.
  - destruct s as [|c s]; cbn [app match_here] in *; [now elim H|].
    destruct (atom_matches isdecimal ic a c); [now apply IH|now elim H].
  - induction s as [|c s IHs].
    + rewrite match_here_star_nil in H. apply match_here_star_skip. now apply IH.
    + cbn [app]. rewrite match_here_star_step in *.
      destruct (atom_matches isdecimal ic a c); [|now apply (IH (c :: s))].
      destruct (match_here isdecimal ic (Star a :: re) s) eqn:E.
      * destruct (match_here isdecimal ic (Star a :: re) (s ++ post)) eqn:E';
          [discriminate|]. exfalso. now apply IHs.
      * destruct (match_here isdecimal ic (Star a :: re) (s ++ post));
          [discriminate|]. now apply (IH (c :: s)).
  - cbn [match_here] in *.
    destruct (match_here isdecimal ic re s) as [[? ?]|] eqn:E; [|now elim H].
    assert (H' : match_here isdecimal ic re (s ++ post) <> None)
      by (apply IH; rewrite E; discriminate).
    destruct (match_here isdecimal ic re (s ++ post)) as [[? ?]|];
      [discriminate|now elim H'].
Qed.

Lemma search_from_found (ic : bool) (re : regex) (s : text) :
  is_match (search_from isdecimal ic re s) = true ->
  exists pre t, s = pre ++ t /\ match_here isdecimal ic re t <> None.
Proof.
  destruct (search_from isdecimal ic re s) as [m|] eqn:E; [|discriminate].
  intros _. destruct (search_from_sound _ _ _ _ E) as [[pre ->] Hm].
  exists pre, (m_start m). split; [reflexivity|]. rewrite Hm. discriminate.
Qed.

(** A text in which the pattern is found keeps it when text is added on
    either side. *)
Lemma search_from_extend (ic : bool) (re : regex) (pre s post : text) :
  is_match (search_from isdecimal ic re s) = true ->
  is_match (search_from isdecimal ic re (pre ++ s ++ post)) = true.
Proof.
  intros H. destruct (search_from_found _ _ _ H) as (p & t & -> & Ht).
  rewrite <- app_assoc. rewrite app_assoc.
  apply search_from_app, search_from_here. now apply match_here_extend.
Qed.

(** A match of a pattern that rejects newlines ends before the first
    newline. *)
Lemma match_here_within_line (ic : bool) (re : regex) (x y : text) :
  rejects_newline ic re = true ->
  match_here isdecimal ic re (x ++ NL :: y) <> None ->
  match_here isdecimal ic re x <> None.
Proof.
  revert x; induction re as [|[a|a|] re IH]; intros x Hre H;
    cbn [rejects_newline forallb] in Hre.
  - discriminate.
  - apply andb_true_iff in Hre as [Ha Hre]. apply negb_true_iff in Ha.
    destruct x as [|c x]; cbn [app match_here] in *.
    + rewrite Ha in H. now elim H.
    + destruct (atom_matches isdecimal ic a c); [now apply IH|now elim H].
  - apply andb_true_iff in Hre as [Ha Hre]. apply negb_true_iff in Ha.
    induction x as [|c x IHx].
    + cbn [app] in H. rewrite match_here_star_step, Ha in H.
      rewrite match_here_star_nil. now apply (IH []).
    + cbn [app] in H. rewrite match_here_star_step in *.
      destruct (atom_matches isdecimal ic a c); [|now apply (IH (c :: x))].
      destruct (match_here isdecimal ic (Star a :: re) (x ++ NL :: y)) eqn:E.
      * assert (Hx : match_here isdecimal ic (Star a :: re) x <> None)
          by (apply IHx; discriminate).
        destruct (match_here isdecimal ic (Star a :: re) x); [discriminate|now elim Hx].
      * destruct (match_here isdecimal ic (Star a :: re) x); [discriminate|].
        now apply (IH (c :: x)).
  - cbn [match_here] in *.
    destruct (match_here isdecimal ic re (x ++ NL :: y)) as [[? ?]|] eqn:E;
      [|now elim H].
    assert (H' : match_here isdecimal ic re x <> None)
      by (apply IH; [exact Hre|rewrite E; discriminate]).
    destruct (match_here isdecimal ic re x) as [[? ?]|]; [discriminate|now elim H'].
Qed.

Lemma is_match_search_iff (ic : bool) (re : regex) (s : text) :
  is_match (search_from isdecimal ic re s) = true <->
  exists pre t, s = pre ++ t /\ match_here isdecimal ic re t <> None.
Proof.
  split; [apply search_from_found|].
  intros (pre & t & -> & Ht). now apply search_from_app, search_from_here.
Qed.

(** A pattern that rejects newlines is found in two lines exactly when it is
    found in one of them. *)
Lemma search_from_lines (ic : bool) (re : regex) (a b : text) :
  rejects_newline ic re = true ->
  is_match (search_from isdecimal ic re (a ++ NL :: b)) =
  is_match (search_from isdecimal ic re a) || is_match (search_from isdecimal ic re b).
Proof.
  intros Hre. apply eq_true_iff_eq. rewrite orb_true_iff. split.
  - induction a as [|c a IH]; intros H; cbn [app search_from] in H.
    + destruct (match_here isdecimal ic re (NL :: b)) as [[? ?]|] eqn:E.
      * left. apply search_from_here.
        apply (match_here_within_line ic re [] b Hre). cbn [app]. rewrite E. discriminate.
      * now right.
    + destruct (match_here isdecimal ic re (c :: a ++ NL :: b)) as [[? ?]|] eqn:E.
      * left. apply search_from_here.
        apply (match_here_within_line ic re (c :: a) b Hre). cbn [app]. rewrite E.
        discriminate.
      * destruct (IH H) as [H'|H']; [left|now right].
        now apply search_from_cons.
  - intros [H|H].
    + apply (search_from_extend ic re [] a (NL :: b)) in H. exact H.
    + apply (search_from_app ic re (a ++ [NL]) b) in H.
      now rewrite <- app_assoc in H.
Qed.

Lemma match_here_related (R : N -> N -> Prop) (ic : bool) (re : regex) :
  respects R ic re ->
  forall s s', Forall2 R s s' ->
    match_here isdecimal ic re s <> None ->
    match_here isdecimal ic re s' <> None.
Proof.
  induction re as [|[a|a|] re IH]; intros Hre s s' Hs H.
  - discriminate.
  - inversion Hre as [|? ? Ha Hre']; subst.
    destruct Hs as [|c c' s s' Hc Hs]; cbn [match_here] in *; [now elim H|].
    rewrite <- (Ha c c' Hc).
    destruct (atom_matches isdecimal ic a c); [now apply (IH Hre' s s')|now elim H].
  - inversion Hre as [|? ? Ha Hre']; subst.
    induction Hs as [|c c' s s' Hc Hs IHs].
    + exact H.
    + rewrite match_here_star_step in *. rewrite <- (Ha c c' Hc).
      assert (Hcons : Forall2 R (c :: s) (c' :: s')) by now constructor.
      destruct (atom_matches isdecimal ic a c); [|now apply (IH Hre' _ _ Hcons)].
      destruct (match_here isdecimal ic (Star a :: re) s) eqn:E.
      * assert (Hx : match_here isdecimal ic (Star a :: re) s' <> None)
          by (apply IHs; discriminate).
        destruct (match_here isdecimal ic (Star a :: re) s'); [discriminate|now elim Hx].
      * destruct (match_here isdecimal ic (Star a :: re) s'); [discriminate|].
        now apply (IH Hre' _ _ Hcons).
  - inversion Hre as [|? ? _ Hre']; subst. cbn [match_here] in *.
    destruct (match_here isdecimal ic re s) as [[? ?]|] eqn:E; [|now elim H].
    assert (H' : match_here isdecimal ic re s' <> None)
      by (apply (IH Hre' s s' Hs); rewrite E; discriminate).
    destruct (match_here isdecimal ic re s') as [[? ?]|]; [discriminate|now elim H'].
Qed.

Lemma search_from_related (R : N -> N -> Prop) (ic : bool) (re : regex) :
  respects R ic re ->
  forall s s', Forall2 R s s' ->
    is_match (search_from isdecimal ic re s) = true ->
    is_match (search_from isdecimal ic re s') = true.
Proof.
  intros Hre s s' Hs. induction Hs as [|c c' s s' Hc Hs IH]; intros H.
  - exact H.
  - cbn [search_from] in H.
    destruct (match_here isdecimal ic re (c :: s)) as [[? ?]|] eqn:E.
    + apply search_from_here.
      apply (match_here_related R ic re Hre (c :: s) (c' :: s')); [now constructor|].
      rewrite E. discriminate.
    + now apply search_from_cons, IH.
Qed.

Lemma fold_case_newline (c : N) : fold_case c = NL <-> c = NL.
Proof.
  unfold fold_case, NL.
  destruct ((65 <=? c) && (c <=? 90))%N eqn:E1.
  - apply andb_true_iff in E1 as [H1 H2].
    apply N.leb_le in H1. apply N.leb_le in H2. lia.
  - destruct (N.eqb_spec c 304); [lia|].
    destruct (N.eqb_spec c 305); [lia|].
    destruct (N.eqb_spec c 383); [lia|].
    destruct (N.eqb_spec c 8490); [lia|]. tauto.
Qed.

Lemma fold_case_eq_newline (c c' : N) :
  fold_case c = fold_case c' -> (c =? NL)%N = (c' =? NL)%N.
Proof.
  intros H.
  destruct (N.eqb_spec c NL) as [->|Hn]; destruct (N.eqb_spec c' NL) as [->|Hn'];
    try reflexivity; exfalso.
  - change (fold_case NL) with NL in H. symmetry in H.
    now apply (proj1 (fold_case_newline c')) in H.
  - change (fold_case NL) with NL in H. now apply (proj1 (fold_case_newline c)) in H.
Qed.

Lemma case_blind_respects (re : regex) :
  case_blind re = true ->
  respects (fun c c' => fold_case c = fold_case c') true re.
Proof.
  unfold case_blind, respects. rewrite forallb_forall, Forall_forall.
  intros H n Hn. specialize (H n Hn).
  destruct n as [[p| | |]|[p| | |]|]; try discriminate; try exact I;
    intros c c' Hc; cbn [atom_matches chr_matches];
    first [now rewrite Hc | now rewrite (fold_case_eq_newline c c' Hc)].
Qed.

(** The patterns of the four lists are made of literals and [.], and none
    of their characters is a newline. *)
Lemma catalog_patterns_shape (patterns : list text) (pattern : text) :
  In patterns pattern_catalog -> In pattern patterns ->
  exists re, re_compile pattern = Some re
             /\ case_blind re = true /\ rejects_newline true re = true.
Proof.
  intros Hps Hp.
  assert (A : forallb (fun ps =>
                forallb (fun p => match re_compile p with
                                  | Some re => case_blind re && rejects_newline true re
                                  | None => false
                                  end) ps) pattern_catalog = true)
    by (vm_compute; reflexivity).
  rewrite forallb_forall in A. specialize (A patterns Hps).
  rewrite forallb_forall in A. specialize (A pattern Hp).
  destruct (re_compile pattern) as [re|]; [|discriminate].
  apply andb_true_iff in A. now exists re.
Qed.

Lemma same_modulo_case_sym (s s' : text) :
  same_modulo_case s s' -> same_modulo_case s' s.
Proof. intros H. induction H; constructor; [now symmetry|assumption]. Qed.

Lemma check_patterns_ext (s s' : text) (patterns : list text) :
  (forall p, In p patterns ->
     is_match (re_search p s ignorecase_multiline)
     = is_match (re_search p s' ignorecase_multiline)) ->
  check_patterns s patterns = check_patterns s' patterns.
Proof.
  intros H. unfold check_patterns. rewrite !check_patterns_loop_filter.
  cbn [app]. now rewrite (filter_ext_in _ _ _ H).
Qed.

(** ** The corpus as lines *)

Lemma combine_logs_app (a b : dict log_content) (acc : text) :
  combine_logs (a ++ b) acc =
  let* all_logs := combine_logs a acc in combine_logs b all_logs.
Proof.
  revert acc; induction a as [|[k [s|l]] a IH]; intros acc; cbn [app combine_logs bind];
    [reflexivity|apply IH|reflexivity].
Qed.

Lemma combine_logs_concat (items : dict log_content) (acc s : text) :
  combine_logs items acc = Return s ->
  s = acc ++ concat (map (fun t => t ++ [NL]) (stream_texts items))
  /\ forall key content, In (key, content) items -> exists t, content = Str t.
Proof.
  revert acc; induction items as [|[k [t|l]] items IH]; intros acc H;
    cbn [combine_logs] in H; [| |discriminate].
  - apply Return_inj in H. subst s. cbn. split; [now rewrite app_nil_r|]. intros ? ? [].
  - destruct (IH _ H) as [-> Hall]. split.
    + cbn [stream_texts map concat snd]. now rewrite <- !app_assoc.
    + intros key content [E|Hin]; [injection E as <- <-; now exists t|eauto].
Qed.

Lemma combine_logs_raises (items : dict log_content) (acc : text) (e : exception) :
  combine_logs items acc = Raise e ->
  e = TypeError concat_list_str_msg
  /\ exists key lines, In (key, StrList lines) items.
Proof.
  revert acc; induction items as [|[k [t|l]] items IH]; intros acc H;
    cbn [combine_logs] in H; [discriminate| |].
  - destruct (IH _ H) as [-> (key & lines & Hin)]. split; [reflexivity|].
    exists key, lines. now right.
  - injection H as <-. split; [reflexivity|]. exists k, l. now left.
Qed.

Lemma search_from_concat_lines (ic : bool) (re : regex) (texts : list text) :
  rejects_newline ic re = true ->
  is_match (search_from isdecimal ic re (concat (map (fun t => t ++ [NL]) texts))) =
  existsb (fun t => is_match (search_from isdecimal ic re t)) texts
  || is_match (search_from isdecimal ic re []).
Proof.
  intros Hre. induction texts as [|t texts IH]; [reflexivity|].
  cbn [map concat existsb]. rewrite <- app_assoc. cbn [app].
  rewrite (search_from_lines ic re t _ Hre), IH. now rewrite orb_assoc.
Qed.

Lemma existsb_Permutation (A : Type) (f : A -> bool) (l l' : list A) :
  Permutation l l' -> existsb f l = existsb f l'.
Proof.
  intros H. induction H; cbn [existsb].
  - reflexivity.
  - now rewrite IHPermutation.
  - destruct (f x), (f y); reflexivity.
  - congruence.
Qed.

(** ** Further properties *)

(** X1. [check_patterns] returns the patterns found in the text, each once
    for each time the list holds it, in the order of the list; its flag says
    whether there is one. *)
Theorem check_patterns_spec (s : text) (patterns : list text) :
  let found := fun p => is_match (re_search p s ignorecase_multiline) in
  snd (check_patterns s patterns) = filter found patterns
  /\ fst (check_patterns s patterns) = existsb found patterns
  /\ (fst (check_patterns s patterns) = true <-> snd (check_patterns s patterns) <> []).
Proof.
  cbv zeta. rewrite check_patterns_matches. unfold check_patterns. cbn [fst].
  rewrite check_patterns_loop_filter. cbn [app].
  split; [reflexivity|].
  induction patterns as [|p ps IH]; cbn [filter existsb].
  - split; [reflexivity|]. split; [discriminate|congruence].
  - destruct IH as [IH1 IH2].
    destruct (is_match (re_search p s ignorecase_multiline)); cbn [orb length Nat.ltb Nat.leb].
    + split; [reflexivity|]. split; [discriminate|reflexivity].
    + split; assumption.
Qed.

(** X2. The tiers are blind to letter case: two texts that differ only in
    the case of their letters are matched by the same patterns of each of the
    four lists. *)
Theorem tier_hits_case_insensitive (s s' : text) (patterns : list text) :
  same_modulo_case s s' ->
  In patterns pattern_catalog ->
  check_patterns s patterns = check_patterns s' patterns.
Proof.
  intros Hs Hps. apply check_patterns_ext. intros p Hp.
  destruct (catalog_patterns_shape patterns p Hps Hp) as (re & Hre & Hblind & _).
  unfold re_search. rewrite Hre. cbn [IGNORECASE ignorecase_multiline].
  apply case_blind_respects in Hblind.
  apply eq_true_iff_eq. split.
  - now apply (search_from_related _ true re Hblind s s').
  - apply (search_from_related _ true re Hblind s' s).
    now apply same_modulo_case_sym.
Qed.

Lemma re_search_extend (p s pre post : text) :
  is_match (re_search p s ignorecase_multiline) = true ->
  is_match (re_search p (pre ++ s ++ post) ignorecase_multiline) = true.
Proof.
  unfold re_search. destruct (re_compile p) as [re|]; [|discriminate].
  apply search_from_extend.
Qed.

Lemma tier_fires_extend (s pre post : text) (patterns : list text) :
  tier_fires s patterns = true ->
  tier_fires (pre ++ s ++ post) patterns = true.
Proof.
  rewrite !tier_fires_iff. intros (p & Hin & Hp). exists p.
  split; [exact Hin|now apply re_search_extend].
Qed.

(** X3. Text added before or after a corpus never removes a hit of the
    four pattern lists, none of whose patterns is anchored: a tier that fires
    on [s] fires on [pre ++ s ++ post], and every pattern of the tier found
    in [s] is found there. *)
Theorem tier_hits_monotone (s pre post : text) (patterns : list text) :
  In patterns pattern_catalog ->
  tier_fires s patterns = true ->
  tier_fires (pre ++ s ++ post) patterns = true
  /\ incl (snd (check_patterns s patterns))
          (snd (check_patterns (pre ++ s ++ post) patterns)).
Proof.
  intros _ H. split; [now apply tier_fires_extend|].
  rewrite !check_patterns_matches. intros p Hp.
  apply filter_In in Hp as [Hin Hp]. apply filter_In.
  split; [exact Hin|now apply re_search_extend].
Qed.

(** X4. Which patterns of a tier fire does not depend on the order of the
    streams: a match of these patterns lies within one line, and every stream
    ends with a newline. *)
Theorem tier_hits_stream_order (log_data log_data' : log_data)
    (items items' : dict log_content) (s s' : text) (patterns : list text) :
  logs log_data = Some items ->
  logs log_data' = Some items' ->
  Permutation items items' ->
  corpus log_data = Return s ->
  corpus log_data' = Return s' ->
  In patterns pattern_catalog ->
  check_patterns s patterns = check_patterns s' patterns.
Proof.
  intros Hl Hl' Hperm Hc Hc' Hps.
  unfold corpus in Hc, Hc'. rewrite Hl in Hc. rewrite Hl' in Hc'.
  destruct (combine_logs_concat _ _ _ Hc) as [-> _].
  destruct (combine_logs_concat _ _ _ Hc') as [-> _].
  cbn [app]. apply check_patterns_ext. intros p Hp.
  destruct (catalog_patterns_shape patterns p Hps Hp) as (re & Hre & _ & Hnl).
  unfold re_search. rewrite Hre. cbn [IGNORECASE ignorecase_multiline].
  rewrite !(search_from_concat_lines true re _ Hnl). f_equal.
  apply existsb_Permutation. unfold stream_texts. now apply Permutation_map.
Qed.

(** ** Further properties of the cascade *)

Lemma fired_crash_rule (log_data : log_data) :
  fired_rule log_data = Return CrashRule ->
  exists s, corpus log_data = Return s /\ tier_fires s crash_patterns = true.
Proof.
  unfold fired_rule, corpus.
  destruct (match logs log_data with Some items => combine_logs items [] | None => Return [] end)
    as [s|e]; cbn [bind]; [|discriminate].
  fold (tier_fires s crash_patterns).
  destruct (tier_fires s crash_patterns) eqn:E; [intros _; now exists s|].
  intros H. exfalso. revert H.
  repeat match goal with
         | |- context [if ?b then _ else _] => destruct b
         end; try discriminate.
  all: destruct (dict_get _ _ _); cbn [len_findall bind]; try discriminate;
    repeat match goal with
           | |- context [if ?b then _ else _] => destruct b
           end; discriminate.
Qed.

Lemma stream_texts_app (a b : dict log_content) :
  stream_texts (a ++ b) = stream_texts a ++ stream_texts b.
Proof. apply map_app. Qed.

Lemma text_streams_corpus (log_data : log_data) :
  text_streams log_data -> exists s, corpus log_data = Return s.
Proof.
  unfold text_streams, corpus. intros H.
  destruct (logs log_data) as [items|]; [|now exists []].
  apply combine_logs_text. intros key content. now apply H.
Qed.

(** X5. A crash verdict survives added streams: when a bundle is classified
    ComponentCrash, every bundle that holds its streams in the same order
    among further text streams is classified ComponentCrash with confidence
    0.95. *)
Theorem crash_survives_added_streams (log_data log_data' : log_data)
    (items before after : dict log_content) (v : verdict) :
  logs log_data = Some items ->
  logs log_data' = Some (before ++ items ++ after) ->
  text_streams log_data' ->
  classify_severity log_data = Return v ->
  severity_stage v = ComponentCrash ->
  exists root_cause evidence,
    classify_severity log_data' = Return (ComponentCrash, root_cause, evidence, 0.95).
Proof.
  intros Hl Hl' Htext Hv Hsev.
  destruct (classify_fired _ _ Hv) as (r & Hr & Hrs & _).
  assert (r = CrashRule) by (rewrite Hsev in Hrs; destruct r; (reflexivity || discriminate)).
  subst r. destruct (fired_crash_rule _ Hr) as (s & Hc & Hcrash).
  destruct (text_streams_corpus _ Htext) as [s' Hc'].
  apply (crash_tier_verdict log_data' s' Hc').
  unfold corpus in Hc, Hc'. rewrite Hl in Hc. rewrite Hl' in Hc'.
  destruct (combine_logs_concat _ _ _ Hc) as [-> _].
  destruct (combine_logs_concat _ _ _ Hc') as [-> _].
  cbn [app] in *. rewrite !stream_texts_app, !map_app, !concat_app.
  now apply tier_fires_extend.
Qed.

Lemma combine_logs_list (items : dict log_content) (acc : text) key lines :
  In (key, StrList lines) items ->
  combine_logs items acc = Raise (TypeError concat_list_str_msg).
Proof.
  revert acc; induction items as [|[k [t|l]] items IH]; intros acc H; [destruct H| |].
  - cbn [combine_logs]. apply IH. destruct H as [E|H]; [discriminate|exact H].
  - reflexivity.
Qed.

Lemma classify_raise_cases (log_data : log_data) (e : exception) :
  classify_severity log_data = Raise e ->
  e = TypeError concat_list_str_msg /\ has_list_stream log_data.
Proof.
  intros He.
  destruct (corpus log_data) as [s|e'] eqn:Hc.
  - exfalso.
    assert (Htext : text_streams log_data).
    { intros items key content Hl Hin. unfold corpus in Hc. rewrite Hl in Hc.
      destruct (combine_logs_concat _ _ _ Hc) as [_ Hall]. eauto. }
    destruct (classify_total_on_text _ Htext) as [v Hv]. congruence.
  - unfold corpus in Hc. unfold classify_severity in He. rewrite Hc in He.
    cbn [bind] in He. injection He as <-.
    destruct (logs log_data) as [items|] eqn:Hl; [|discriminate].
    destruct (combine_logs_raises _ _ _ Hc) as [-> (key & lines & Hin)].
    split; [reflexivity|]. now exists items, key, lines.
Qed.

Lemma list_stream_raises (log_data : log_data) :
  has_list_stream log_data ->
  classify_severity log_data = Raise (TypeError concat_list_str_msg)
  /\ fired_rule log_data = Raise (TypeError concat_list_str_msg).
Proof.
  intros (items & key & lines & Hl & Hin).
  unfold classify_severity, fired_rule. rewrite Hl.
  now rewrite (combine_logs_list items [] key lines Hin).
Qed.

Lemma severity_in_range (log_data : log_data) (v : verdict) :
  classify_severity log_data = Return v -> (0 <= severity_stage v <= 3)%Z.
Proof.
  intros H. destruct (classify_fired _ _ H) as (r & _ & -> & _).
  destruct r; cbn [rule_severity]; lia.
Qed.

Lemma fired_classify (log_data : log_data) (r : rule) :
  fired_rule log_data = Return r ->
  exists v, classify_severity log_data = Return v
            /\ severity_stage v = rule_severity r
            /\ confidence v = rule_confidence r.
Proof.
  intros Hr. destruct (classify_severity log_data) as [v|e] eqn:Hv.
  - destruct (classify_fired _ _ Hv) as (r' & Hr' & Hs & Hconf).
    assert (r' = r) by congruence. subst r'. now exists v.
  - destruct (classify_raise_cases _ _ Hv) as [_ Hl].
    destruct (list_stream_raises _ Hl) as [_ Hf]. congruence.
Qed.

Lemma tier_fires_nonempty (s : text) (patterns : list text) :
  tier_fires s patterns = true -> snd (check_patterns s patterns) <> [].
Proof.
  unfold tier_fires, check_patterns. cbn [fst snd].
  destruct (check_patterns_loop s patterns []); [discriminate|discriminate].
Qed.

Lemma app_nonempty_l (A : Type) (l l' : list A) : l <> [] -> l ++ l' <> [].
Proof. destruct l; [congruence|discriminate]. Qed.

Lemma app_nonempty_r (A : Type) (l l' : list A) : l' <> [] -> l ++ l' <> [].
Proof. destruct l, l'; (congruence || discriminate). Qed.

Ltac evidence_settled H :=
  apply Return_inj in H; subst; cbn [evidence_keywords fst snd app].

Lemma evidence_nonempty (log_data : log_data) (v : verdict) :
  classify_severity log_data = Return v -> evidence_keywords v <> [].
Proof.
  unfold classify_severity.
  destruct (match logs log_data with Some items => combine_logs items [] | None => Return [] end)
    as [all_logs|e]; cbn [bind]; [|discriminate].
  rewrite (check_patterns_eta all_logs crash_patterns).
  rewrite (check_patterns_eta all_logs success_patterns).
  rewrite (check_patterns_eta all_logs ue_failure_patterns).
  rewrite (check_patterns_eta all_logs abnormal_patterns).
  cbn [fst].
  destruct (tier_fires all_logs crash_patterns) eqn:Hcrash.
  { intros H. evidence_settled H.
    apply tier_fires_nonempty in Hcrash.
    destruct (contains _ _ && contains _ _); [destruct (re_search _ _ _)|];
      try assumption. now apply app_nonempty_l. }
  destruct (tier_fires all_logs success_patterns) eqn:Hsucc; cbn [andb].
  - apply tier_fires_nonempty in Hsucc.
    destruct (2 <=? _)%nat.
    { intros H. evidence_settled H.
      destruct (re_search _ _ _); [now apply app_nonempty_l|assumption]. }
    destruct (tier_fires all_logs ue_failure_patterns) eqn:Hue.
    { intros H. evidence_settled H. now apply tier_fires_nonempty. }
    destruct (tier_fires all_logs abnormal_patterns) eqn:Habn.
    { intros H. evidence_settled H. now apply tier_fires_nonempty. }
    cbn [negb]. destruct (py_in _ _ && py_in _ _); cbn [bind];
      (destruct (truthy _ && negb _); intros H; evidence_settled H;
       [discriminate|assumption]).
  - destruct (tier_fires all_logs ue_failure_patterns) eqn:Hue.
    { intros H. evidence_settled H. now apply tier_fires_nonempty. }
    destruct (tier_fires all_logs abnormal_patterns) eqn:Habn.
    { intros H. evidence_settled H. now apply tier_fires_nonempty. }
    cbn [negb].
    destruct (py_in _ _ && py_in _ _); cbn [bind].
    + destruct (dict_get _ _ _) as [u|l]; cbn [len_findall bind]; [|discriminate].
      destruct (10 <? _)%nat; cbn [bind].
      { intros H. evidence_settled H. discriminate. }
      destruct (truthy _ && negb _); intros H; evidence_settled H; discriminate.
    + destruct (truthy _ && negb _); intros H; evidence_settled H; discriminate.
Qed.

(** X7. Every verdict has a severity among 0, 1, 2, 3, never the
    ProcessingError sentinel, and at least one evidence entry. *)
Theorem verdict_invariants (log_data : log_data) (v : verdict) :
  classify_severity log_data = Return v ->
  (0 <= severity_stage v <= 3)%Z /\ evidence_keywords v <> [].
Proof.
  intros H. split; [now apply (severity_in_range log_data)|].
  now apply (evidence_nonempty log_data).
Qed.

(** X8. Connection-failure precedence: with no Crash-tier match and no
    corroborated success, a ConnectionFailure-tier match gives
    ConnectionFailure (3) with confidence 0.85, the matched patterns as
    evidence, whatever the Abnormal tier, the UE stream and the metadata
    hold; a lone success keyword does not prevent it. *)
Theorem ue_failure_verdict (log_data : log_data) (all_logs : text) :
  corpus log_data = Return all_logs ->
  tier_fires all_logs crash_patterns = false ->
  corroborated all_logs = false ->
  tier_fires all_logs ue_failure_patterns = true ->
  classify_severity log_data =
    Return (ConnectionFailure,
            U "UE 連線失敗：組件啟動正常但 UE 無法完成連線，在 "
              ++ affected_module_of log_data ++ U " 模組偵測到失敗",
            snd (check_patterns all_logs ue_failure_patterns),
            0.85)
  /\ fired_rule log_data = Return UEFailureRule.
Proof.
  intros Hc Hcrash Hcorr Hue.
  unfold corroborated, success_signal_count in Hcorr.
  split; enter_cascade Hc all_logs; rewrite Hcrash, Hcorr, Hue; reflexivity.
Qed.

(** X9. The Abnormal tier: with no Crash- or ConnectionFailure-tier match
    and no corroborated success, an Abnormal-tier match gives
    ComponentAbnormal (2) with confidence 0.70 and the matched patterns as
    evidence. *)
Theorem abnormal_verdict (log_data : log_data) (all_logs : text) :
  corpus log_data = Return all_logs ->
  tier_fires all_logs crash_patterns = false ->
  corroborated all_logs = false ->
  tier_fires all_logs ue_failure_patterns = false ->
  tier_fires all_logs abnormal_patterns = true ->
  classify_severity log_data =
    Return (ComponentAbnormal,
            U "組件異常運行：在 " ++ filename_of log_data ++ U " 中 "
              ++ affected_module_of log_data ++ U " 模組出現錯誤但未崩潰，"
              ++ impact_desc_of log_data,
            snd (check_patterns all_logs abnormal_patterns),
            0.70)
  /\ fired_rule log_data = Return AbnormalRule.
Proof.
  intros Hc Hcrash Hcorr Hue Habn.
  unfold corroborated, success_signal_count in Hcorr.
  split; enter_cascade Hc all_logs; rewrite Hcrash, Hcorr, Hue, Habn; reflexivity.
Qed.

Lemma truthy_nonempty (s : text) :
  s <> [] -> truthy s && negb (text_eqb s []) = true.
Proof. destruct s; [congruence|reflexivity]. Qed.

(** X10. The metadata fallback: when no tier decides and the
    repeated-connection rule is silent, a non-empty metadata [error_type]
    gives ComponentAbnormal (2) with confidence 0.50 and the two metadata
    entries as evidence, also when a success keyword was found. *)
Theorem metadata_fallback_verdict (log_data : log_data) (all_logs ue_log : text) :
  corpus log_data = Return all_logs ->
  tier_fires all_logs crash_patterns = false ->
  corroborated all_logs = false ->
  tier_fires all_logs ue_failure_patterns = false ->
  tier_fires all_logs abnormal_patterns = false ->
  ue_log_of log_data = Str ue_log ->
  tier_fires all_logs success_patterns = true
    \/ repeated_connection_heuristic ue_log = false ->
  error_type_of log_data <> [] ->
  classify_severity log_data =
    Return (ComponentAbnormal,
            U "可能異常：配置錯誤 (" ++ error_type_of log_data ++ U ") 在 "
              ++ filename_of log_data ++ U "，但 log 中無明確崩潰或失敗訊息",
            [U "Config error: " ++ error_type_of log_data;
             U "Impact: " ++ impact_desc_of log_data],
            0.50)
  /\ fired_rule log_data = Return MetadataRule.
Proof.
  intros Hc Hcrash Hcorr Hue Habn Hlog Hsilent Hty.
  unfold corroborated, success_signal_count in Hcorr.
  unfold ue_log_of in Hlog.
  apply truthy_nonempty in Hty. unfold error_type_of in Hty.
  unfold repeated_connection_heuristic, connect_failure_count in Hsilent.
  split; enter_cascade Hc all_logs; rewrite Hcrash, Hcorr, Hue, Habn, Hlog;
    cbn [py_in len_findall];
    (destruct Hsilent as [Hs|Hs];
     [rewrite Hs; cbn [negb];
      destruct (contains (U "connect() to") ue_log
                && contains (U "failed, errno") ue_log)
     |destruct (contains (U "connect() to") ue_log
                && contains (U "failed, errno") ue_log);
      cbn [andb] in Hs;
      [destruct (negb (tier_fires all_logs success_patterns)); cbn [bind];
       try rewrite Hs|]]);
    cbn [bind]; rewrite Hty; reflexivity.
Qed.

(** X11. A success keyword disables the repeated-connection rule: when a
    Success-tier pattern is found anywhere in the corpus, the rule does not
    fire, however many connection failures the UE stream holds. *)
Theorem success_disables_heuristic (log_data : log_data) (all_logs : text) :
  corpus log_data = Return all_logs ->
  tier_fires all_logs success_patterns = true ->
  fired_rule log_data <> Return RepeatedConnectRule
  /\ forall v, classify_severity log_data = Return v -> ~ confidence v == 0.80.
Proof.
  intros Hc Hsucc.
  assert (Hfired : fired_rule log_data <> Return RepeatedConnectRule).
  { enter_cascade Hc all_logs. rewrite Hsucc. cbn [negb].
    repeat match goal with
           | |- context [if ?b then _ else _] => destruct b
           end; cbn [bind]; discriminate. }
  split; [exact Hfired|].
  intros v Hv. destruct (classify_fired _ _ Hv) as (r & Hr & _ & Hconf).
  rewrite Hconf.
  destruct r; try (now elim Hfired); cbn [rule_confidence]; unfold Qeq; cbn; lia.
Qed.

(** X12. The placeholder that [merge_case_logs.py] stores for a log it could
    not read, "Error reading log: ...", is an Abnormal-tier match: the
    pattern ERROR is found in it. *)
Theorem unreadable_log_placeholder_is_abnormal (all_logs : text) :
  contains (U "Error reading log: ") all_logs = true ->
  tier_fires all_logs abnormal_patterns = true
  /\ In (U "ERROR") (snd (check_patterns all_logs abnormal_patterns)).
Proof.
  intros H. destruct (contains_split _ _ H) as (pre & post & ->).
  assert (A : is_match (re_search (U "ERROR")
                          (pre ++ U "Error reading log: " ++ post)
                          ignorecase_multiline) = true).
  { unfold re_search.
    replace (re_compile (U "ERROR")) with (Some (lit (U "ERROR")))
      by (vm_compute; reflexivity).
    apply search_from_app, search_from_here. vm_compute. discriminate. }
  split.
  - apply tier_fires_iff. exists (U "ERROR"). split; [|exact A].
    cbn [abnormal_patterns map In]. left; reflexivity.
  - rewrite check_patterns_matches. apply filter_In. split; [|exact A].
    cbn [abnormal_patterns map In]. left; reflexivity.
Qed.

(** ** Further properties of [analyze_file] and [analyze_directory] *)

Lemma analyze_file_returned (filepath : Path) (log_data : log_data) (v : verdict) :
  classify_severity log_data = Return v ->
  analyze_file filepath (Loaded log_data) =
    {| r_case_id := path_parent_name filepath ++ U "/" ++ path_name filepath;
       r_severity_stage := severity_stage v;
       r_root_cause_summary := root_cause_summary v;
       r_evidence_keywords := evidence_keywords v;
       r_component := extract_component_from_filename (filename_of log_data);
       r_confidence := confidence v |}.
Proof.
  intros Hv. unfold analyze_file, analyze_file_with. cbn [bind]. rewrite Hv.
  destruct v as [[[severity root_cause] evidence] conf]. reflexivity.
Qed.

Lemma analyze_file_raised (filepath : Path) (log_data : log_data) (e : exception) :
  classify_severity log_data = Raise e ->
  r_severity_stage (analyze_file filepath (Loaded log_data)) = ProcessingError
  /\ r_confidence (analyze_file filepath (Loaded log_data)) = 0.0.
Proof.
  intros He. unfold analyze_file, analyze_file_with. cbn [bind]. rewrite He.
  split; reflexivity.
Qed.

(** X13. [analyze_file] answers with one of two kinds of record, which no
    field confuses.  The ProcessingError record has severity -1, component
    Error, confidence 0.0, the path as case id and the message of the
    exception as its one evidence entry.  Every other record has a severity
    among 0, 1, 2, 3, a component among DU, CU, UE and Unknown, one of the
    seven confidence constants, the case id made of the directory and the
    file name, and at least one evidence entry.  So a record has severity -1
    exactly when its component is Error, and exactly when its confidence is
    zero. *)
Theorem analyze_file_record_shape (filepath : Path) (loaded : load_outcome) :
  let r := analyze_file filepath loaded in
  ((r_severity_stage r = ProcessingError
    /\ r_component r = U "Error"
    /\ r_confidence r = 0.0
    /\ r_case_id r = path_str filepath
    /\ exists msg, r_evidence_keywords r = [msg]
                   /\ r_root_cause_summary r = U "Error processing file: " ++ msg)
   \/ ((0 <= r_severity_stage r <= 3)%Z
       /\ In (r_component r) [U "DU"; U "CU"; U "UE"; U "Unknown"]
       /\ In (r_confidence r) confidence_constants
       /\ r_case_id r = path_parent_name filepath ++ U "/" ++ path_name filepath
       /\ r_evidence_keywords r <> []))
  /\ (r_severity_stage r = ProcessingError <-> r_component r = U "Error")
  /\ (r_severity_stage r = ProcessingError <-> r_confidence r == 0).
Proof.
  intros r.
  assert (Hraised : forall e,
            analyze_file filepath loaded
            = {| r_case_id := path_str filepath;
                 r_severity_stage := -1;
                 r_root_cause_summary := U "Error processing file: " ++ str_of_exception e;
                 r_evidence_keywords := [str_of_exception e];
                 r_component := U "Error";
                 r_confidence := 0.0 |} ->
            r_severity_stage r = ProcessingError
            /\ r_component r = U "Error"
            /\ r_confidence r = 0.0
            /\ r_case_id r = path_str filepath
            /\ exists msg, r_evidence_keywords r = [msg]
                           /\ r_root_cause_summary r
                              = U "Error processing file: " ++ msg).
  { intros e He. subst r. rewrite He.
    cbn [r_severity_stage r_component r_confidence r_case_id r_evidence_keywords
         r_root_cause_summary].
    repeat match goal with |- _ /\ _ => split end; try reflexivity.
    exists (str_of_exception e). split; reflexivity. }
  assert (Hshape :
    (r_severity_stage r = ProcessingError
     /\ r_component r = U "Error"
     /\ r_confidence r = 0.0
     /\ r_case_id r = path_str filepath
     /\ exists msg, r_evidence_keywords r = [msg]
                    /\ r_root_cause_summary r = U "Error processing file: " ++ msg)
    \/ ((0 <= r_severity_stage r <= 3)%Z
        /\ In (r_component r) [U "DU"; U "CU"; U "UE"; U "Unknown"]
        /\ In (r_confidence r) confidence_constants
        /\ r_case_id r = path_parent_name filepath ++ U "/" ++ path_name filepath
        /\ r_evidence_keywords r <> [])).
  { destruct loaded as [e|log_data].
    - left. apply (Hraised e). reflexivity.
    - destruct (classify_severity log_data) as [v|e] eqn:Hv.
      + right. subst r. rewrite (analyze_file_returned filepath log_data v Hv).
        cbn [r_severity_stage r_component r_confidence r_case_id r_evidence_keywords].
        repeat match goal with |- _ /\ _ => split end.
        * apply (severity_in_range _ _ Hv).
        * apply (severity_in_range _ _ Hv).
        * unfold extract_component_from_filename. cbn [In].
          destruct (contains (U "DU") _); [left; reflexivity|].
          destruct (contains (U "CU") _); [right; left; reflexivity|].
          destruct (contains (U "UE") _); [do 2 right; left; reflexivity|].
          do 3 right; left; reflexivity.
        * destruct (classify_fired _ _ Hv) as (rl & _ & _ & ->).
          unfold confidence_constants. cbn [In].
          destruct rl; cbn [rule_confidence];
            first [ left; reflexivity
                  | right; left; reflexivity
                  | do 2 right; left; reflexivity
                  | do 3 right; left; reflexivity
                  | do 4 right; left; reflexivity
                  | do 5 right; left; reflexivity
                  | do 6 right; left; reflexivity ].
        * reflexivity.
        * apply (evidence_nonempty _ _ Hv).
      + left. apply (Hraised e). unfold analyze_file, analyze_file_with.
        cbn [bind]. now rewrite Hv. }
  split; [exact Hshape|].
  destruct Hshape as [(Hs & Hc & Hq & _)|(Hs & Hc & Hq & _)].
  - rewrite Hs, Hc, Hq. split; split; intros _; reflexivity.
  - split; split; intros H; exfalso.
    + unfold ProcessingError in H. lia.
    + rewrite H in Hc. cbn [In] in Hc.
      destruct Hc as [E|[E|[E|[E|[]]]]]; vm_compute in E; discriminate.
    + unfold ProcessingError in H. lia.
    + unfold confidence_constants in Hq. cbn [In] in Hq.
      destruct Hq as [E|[E|[E|[E|[E|[E|[E|[]]]]]]]]; rewrite <- E in H;
        vm_compute in H; discriminate.
Qed.

Lemma upper_app (a b : text) : upper (a ++ b) = upper a ++ upper b.
Proof. apply map_app. Qed.

Lemma upper_idempotent (s : text) : upper (upper s) = upper s.
Proof.
  unfold upper. rewrite map_map. apply map_ext. intros c.
  destruct ((97 <=? c) && (c <=? 122))%N eqn:E; [|now rewrite E].
  apply andb_true_iff in E as [H1 H2]. apply N.leb_le in H1. apply N.leb_le in H2.
  destruct ((97 <=? c - 32) && (c - 32 <=? 122))%N eqn:E'; [|reflexivity].
  apply andb_true_iff in E' as [H3 _]. apply N.leb_le in H3. lia.
Qed.

(** X14. The component label looks for the letters anywhere in the name and
    prefers DU: a name in which D and U stand side by side, in either case,
    is labelled DU together with every name that holds it, whatever else
    these names hold; and the label does not depend on the case of the
    name. *)
Theorem extract_component_du_priority (filename pre post : text) :
  contains (U "DU") (upper filename) = true ->
  extract_component_from_filename (pre ++ filename ++ post) = U "DU"
  /\ extract_component_from_filename (upper (pre ++ filename ++ post)) = U "DU".
Proof.
  intros H.
  assert (A : contains (U "DU") (upper (pre ++ filename ++ post)) = true).
  { rewrite !upper_app. destruct (contains_split _ _ H) as (p & q & ->).
    rewrite <- !app_assoc. rewrite (app_assoc (upper pre) p). apply contains_app. }
  unfold extract_component_from_filename. rewrite upper_idempotent, A. now split.
Qed.

Lemma div10_step (j : nat) :
  (S j / 10 = if (S j mod 10 =? 0) then S (j / 10) else j / 10)%nat.
Proof.
  pose proof (Nat.div_mod_eq (S j) 10). pose proof (Nat.div_mod_eq j 10).
  pose proof (Nat.mod_upper_bound j 10). pose proof (Nat.mod_upper_bound (S j) 10).
  destruct (Nat.eqb_spec (S j mod 10) 0); lia.
Qed.

Lemma analyze_directory_loop_spec (total : nat) (json_files : list dir_entry) :
  forall j results stdout,
    fst (analyze_directory_loop total (S j) json_files results stdout)
    = results ++ map (fun f => analyze_file (fst f) (snd f)) json_files
    /\ (length (snd (analyze_directory_loop total (S j) json_files results stdout))
        + j / 10
        = length stdout + (j + length json_files) / 10)%nat.
Proof.
  induction json_files as [|[filepath loaded] files IH]; intros j results stdout;
    cbn [analyze_directory_loop map length fst snd].
  - split; [now rewrite app_nil_r|]. now rewrite Nat.add_0_r.
  - destruct (IH (S j) (results ++ [analyze_file filepath loaded])
                (if (S j mod 10 =? 0)%nat
                 then stdout ++ [U "  Progress: " ++ str_of_nat (S j) ++ U "/"
                                   ++ str_of_nat total]
                 else stdout)) as [IH1 IH2].
    split; [rewrite IH1; now rewrite <- app_assoc|].
    replace (j + S (length files))%nat with (S j + length files)%nat by lia.
    rewrite (div10_step j) in IH2.
    destruct (S j mod 10 =? 0)%nat; [rewrite length_app in IH2; cbn [length] in IH2|];
      lia.
Qed.

(** X15. [analyze_directory] returns one record per file, in the order of
    the files, unreadable files included; it prints the heading and one
    progress line for every tenth file. *)
Theorem analyze_directory_spec (directory : text) (json_files : list dir_entry) :
  fst (analyze_directory directory json_files)
    = map (fun f => analyze_file (fst f) (snd f)) json_files
  /\ length (fst (analyze_directory directory json_files)) = length json_files
  /\ length (snd (analyze_directory directory json_files))
     = (1 + length json_files / 10)%nat.
Proof.
  unfold analyze_directory.
  destruct (analyze_directory_loop_spec (length json_files) json_files 0 []
              [U "Analyzing " ++ str_of_nat (length json_files) ++ U " files in "
                 ++ directory ++ U "..."]) as [H1 H2].
  rewrite H1. cbn [app length] in *. rewrite length_map.
  repeat split. change (0 / 10)%nat with 0%nat in H2.
  cbn [Nat.add] in H2. lia.
Qed.

(** ** The statistics *)

Lemma idict_lookup_set_same (V : Type) (d : idict V) (k : Z) (v : V) :
  idict_lookup (idict_set d k v) k = Some v.
Proof.
  induction d as [|[k0 w] d IH]; cbn [idict_set idict_lookup].
  - now rewrite Z.eqb_refl.
  - destruct (Z.eqb_spec k0 k) as [->|Hne]; cbn [idict_lookup].
    + now rewrite Z.eqb_refl.
    + destruct (Z.eqb_spec k0 k); [contradiction|exact IH].
Qed.

Lemma idict_lookup_set_other (V : Type) (d : idict V) (k k' : Z) (v : V) :
  k <> k' -> idict_lookup (idict_set d k v) k' = idict_lookup d k'.
Proof.
  intros Hne. induction d as [|[k0 w] d IH]; cbn [idict_set idict_lookup].
  - destruct (Z.eqb_spec k k'); [contradiction|reflexivity].
  - destruct (Z.eqb_spec k0 k) as [->|Hne0]; cbn [idict_lookup].
    + now destruct (Z.eqb_spec k k').
    + now rewrite IH.
Qed.

Lemma idict_keys_set (V : Type) (d : idict V) (k : Z) (v : V) :
  map fst (idict_set d k v)
  = if existsb (Z.eqb k) (map fst d) then map fst d else map fst d ++ [k].
Proof.
  induction d as [|[k0 w] d IH]; cbn [idict_set map fst existsb app]; [reflexivity|].
  rewrite (Z.eqb_sym k k0).
  destruct (Z.eqb_spec k0 k) as [->|Hne]; cbn [map fst orb]; [reflexivity|].
  rewrite IH. now destruct (existsb _ _).
Qed.

Lemma idict_total_set_gen (d : idict nat) (k : Z) (v : nat) :
  (idict_total (idict_set d k v) + idict_get d k 0 = idict_total d + v)%nat.
Proof.
  unfold idict_get, idict_total.
  induction d as [|[k0 w] d IH]; cbn [idict_set idict_lookup fold_right snd].
  - lia.
  - destruct (Z.eqb_spec k0 k) as [->|Hne]; cbn [fold_right snd]; lia.
Qed.

Lemma idict_total_set (d : idict nat) (k : Z) :
  idict_total (idict_set d k (idict_get d k 0 + 1)%nat) = (idict_total d + 1)%nat.
Proof. pose proof (idict_total_set_gen d k (idict_get d k 0 + 1)%nat). lia. Qed.

Lemma severity_counts_loop_spec (all_results : list report) :
  forall d,
    (forall sev,
       idict_get (severity_counts_loop all_results d) sev 0%nat
       = (idict_get d sev 0 + count_severity sev (map r_severity_stage all_results))%nat)
    /\ idict_total (severity_counts_loop all_results d)
       = (idict_total d + length all_results)%nat
    /\ (NoDup (map fst d) -> NoDup (map fst (severity_counts_loop all_results d)))
    /\ (forall sev,
          In sev (map fst (severity_counts_loop all_results d))
          <-> In sev (map fst d) \/ In sev (map r_severity_stage all_results)).
Proof.
  induction all_results as [|r rs IH]; intros d; cbn [severity_counts_loop map length].
  - unfold count_severity. cbn [count_occ In].
    repeat split; intros; try tauto; lia.
  - set (sev0 := r_severity_stage r).
    destruct (IH (idict_set d sev0 (idict_get d sev0 0 + 1)%nat)) as (G & T & N & K).
    repeat split.
    + intros sev. rewrite G. unfold count_severity, idict_get. cbn [count_occ].
      destruct (Z.eq_dec sev0 sev) as [->|Hne].
      * rewrite idict_lookup_set_same. fold (idict_get d sev 0%nat). lia.
      * now rewrite idict_lookup_set_other.
    + rewrite T, idict_total_set. lia.
    + intros Hd. apply N. rewrite idict_keys_set.
      destruct (existsb (Z.eqb sev0) (map fst d)) eqn:E; [exact Hd|].
      apply NoDup_app; [exact Hd|repeat constructor; intros []|].
      intros x Hx [<-|[]].
      assert (existsb (Z.eqb sev0) (map fst d) = true)
        by (apply existsb_exists; exists sev0; split; [exact Hx|apply Z.eqb_refl]).
      congruence.
    + intros H. apply K in H. rewrite idict_keys_set in H.
      destruct (existsb (Z.eqb sev0) (map fst d)) eqn:E.
      * destruct H as [H|H]; [now left|right; now right].
      * destruct H as [H|H]; [|right; now right].
        apply in_app_or in H as [H|[<-|[]]]; [now left|right; now left].
    + intros H. apply K. rewrite idict_keys_set.
      destruct (existsb (Z.eqb sev0) (map fst d)) eqn:E.
      * destruct H as [H|[<-|H]]; [now left| |now right].
        left. apply existsb_exists in E as (x & Hx & Ex).
        apply Z.eqb_eq in Ex. now subst x.
      * destruct H as [H|[<-|H]]; [left; apply in_or_app; now left| |now right].
        left. apply in_or_app. right. now left.
Qed.

(** X16. The severity histogram: the count stored under a severity is the
    number of records of that severity, absent keys counting as zero; the
    counts add up to the number of records; the keys are the severities that
    occur, each once. *)
Theorem severity_counts_spec (all_results : list report) :
  (forall sev,
     idict_get (severity_counts all_results) sev 0%nat
     = count_severity sev (map r_severity_stage all_results))
  /\ idict_total (severity_counts all_results) = length all_results
  /\ NoDup (map fst (severity_counts all_results))
  /\ (forall sev,
        In sev (map fst (severity_counts all_results))
        <-> In sev (map r_severity_stage all_results)).
Proof.
  unfold severity_counts.
  destruct (severity_counts_loop_spec all_results []) as (G & T & N & K).
  repeat split.
  - intros sev. now rewrite G.
  - now rewrite T.
  - apply N. constructor.
  - intros H. apply K in H as [[]|H]. exact H.
  - intros H. apply K. now right.
Qed.

(** X17. The confidence bands of [main]: a record of [analyze_file] lies in
    the high band (confidence at least 0.85) exactly when the crash, the
    corroborated-success or the connection-failure tier decided, and in the
    low band (below 0.60) exactly when it is a ProcessingError record or the
    verdict came from the metadata fallback or the uncertain case. *)
Theorem confidence_bands (filepath : Path) (loaded : load_outcome)
    (all_results : list report) :
  let r := analyze_file filepath loaded in
  In r all_results ->
  (In r (high_conf all_results) <->
   exists log_data, loaded = Loaded log_data
     /\ (fired_rule log_data = Return CrashRule
         \/ fired_rule log_data = Return SuccessRule
         \/ fired_rule log_data = Return UEFailureRule))
  /\ (In r (low_conf all_results) <->
      r_severity_stage r = ProcessingError
      \/ exists log_data, loaded = Loaded log_data
           /\ (fired_rule log_data = Return MetadataRule
               \/ fired_rule log_data = Return UncertainRule)).
Proof.
  intros r Hin. unfold high_conf, low_conf. rewrite !filter_In.
  destruct loaded as [e|log_data].
  - assert (Hc : r_confidence r = 0.0) by reflexivity.
    assert (Hs : r_severity_stage r = ProcessingError) by reflexivity.
    rewrite Hc. split; split.
    + intros [_ H]. vm_compute in H. discriminate.
    + intros (d & E & _). discriminate.
    + intros _. now left.
    + intros _. split; [exact Hin|reflexivity].
  - destruct (classify_severity log_data) as [v|e] eqn:Hv.
    + destruct (classify_fired _ _ Hv) as (rho & Hrho & _ & Hconf).
      pose proof (severity_in_range _ _ Hv) as Hrange.
      assert (Hc : r_confidence r = rule_confidence rho)
        by (subst r; rewrite (analyze_file_returned filepath log_data v Hv); exact Hconf).
      assert (Hs : r_severity_stage r = severity_stage v)
        by (subst r; now rewrite (analyze_file_returned filepath log_data v Hv)).
      rewrite Hc, Hs. split; split.
      * intros [_ H]. exists log_data. split; [reflexivity|]. rewrite Hrho.
        destruct rho; vm_compute in H; try discriminate; tauto.
      * intros (d & E & H). injection E as <-. rewrite Hrho in H. split; [exact Hin|].
        destruct H as [H|[H|H]]; injection H as ->; reflexivity.
      * intros [_ H]. right. exists log_data. split; [reflexivity|]. rewrite Hrho.
        destruct rho; vm_compute in H; try discriminate; tauto.
      * intros [H|(d & E & H)]; [unfold ProcessingError in H; lia|].
        injection E as <-. rewrite Hrho in H. split; [exact Hin|].
        destruct H as [H|H]; injection H as ->; reflexivity.
    + destruct (analyze_file_raised filepath log_data e Hv) as [Hs Hc].
      fold r in Hs, Hc.
      destruct (classify_raise_cases _ _ Hv) as [_ Hl].
      destruct (list_stream_raises _ Hl) as [_ Hf].
      rewrite Hc. split; split.
      * intros [_ H]. vm_compute in H. discriminate.
      * intros (d & E & H). injection E as <-. rewrite Hf in H.
        destruct H as [H|[H|H]]; discriminate.
      * intros _. now left.
      * intros _. split; [exact Hin|reflexivity].
Qed.

(** ** [classify_and_organize] *)

Lemma severity_label_lookup (sev : Z) :
  (0 <= sev <= 3)%Z ->
  exists label, idict_lookup severity_labels sev = Some label
                /\ idict_lookup severity_dirs sev = Some label
                /\ idict_get severity_labels sev [] = label.
Proof.
  intros H.
  assert (sev = 0 \/ sev = 1 \/ sev = 2 \/ sev = 3)%Z as [-> | [-> | [-> | ->]]] by lia;
    eexists; repeat split.
Qed.

Lemma idict_lookup_key (V : Type) (d : idict V) (k : Z) :
  In k (map fst d) -> exists v, idict_lookup d k = Some v.
Proof.
  induction d as [|[k0 w] d IH]; cbn [map fst In idict_lookup]; [intros []|].
  destruct (Z.eqb_spec k0 k); [eauto|]. intros [E|H]; [contradiction|auto].
Qed.

Lemma count_severity_app (sev : Z) (l l' : list Z) :
  count_severity sev (l ++ l') = (count_severity sev l + count_severity sev l')%nat.
Proof. apply count_occ_app. Qed.

Lemma organize_file_step (st : organize_state) (f : source_file) :
  organize_inv st ->
  os_results (organize_file st f) = os_results st ++ organized_of f
  /\ organize_inv (organize_file st f).
Proof.
  intros Hinv. unfold organize_file, organized_of.
  destruct (sf_loaded f) as [e|log_data]; cbn [bind];
    [split; [now rewrite app_nil_r|exact Hinv]|].
  destruct (classify_severity log_data) as [v|e] eqn:Hv;
    [|split; [now rewrite app_nil_r|exact Hinv]].
  pose proof (severity_in_range _ _ Hv) as Hrange.
  destruct v as [[[sev root_cause] evidence] conf].
  cbn [severity_stage fst] in Hrange.
  destruct (severity_label_lookup sev Hrange) as (label & Hlab & Hdir & Hget).
  rewrite Hdir.
  destruct (copy_raises f); [split; [now rewrite app_nil_r|exact Hinv]|].
  cbn [os_results os_file_counts os_copies].
  destruct Hinv as (Hkeys & Hcounts & Hcopies).
  assert (Hkey : In sev (map fst (os_file_counts st))).
  { rewrite Hkeys.
    assert (sev = 0 \/ sev = 1 \/ sev = 2 \/ sev = 3)%Z as [-> | [-> | [-> | ->]]] by lia;
      cbn [In]; tauto. }
  destruct (idict_lookup_key _ _ _ Hkey) as [n Hn]. rewrite Hn, Hlab.
  cbn [os_results os_file_counts os_copies].
  assert (Hentry : organize_entry f (sev, root_cause, evidence, conf)
                   = {| o_source_file := rel_path f;
                        o_severity_stage := sev;
                        o_destination_folder := label;
                        o_root_cause_summary := root_cause;
                        o_confidence := conf;
                        o_evidence_keywords := firstn 3 evidence |}).
  { unfold organize_entry.
    cbn [severity_stage root_cause_summary evidence_keywords confidence fst snd].
    now rewrite Hget. }
  rewrite Hentry. split; [reflexivity|].
  split; [|split]; cbn [os_results os_file_counts os_copies].
  - rewrite idict_keys_set.
    assert (E : existsb (Z.eqb sev) (map fst (os_file_counts st)) = true)
      by (apply existsb_exists; exists sev; split; [exact Hkey|apply Z.eqb_refl]).
    now rewrite E.
  - intros s. rewrite map_app, count_severity_app.
    cbn [map o_severity_stage]. unfold count_severity at 2. cbn [count_occ].
    unfold idict_get.
    destruct (Z.eq_dec sev s) as [->|Hne].
    + rewrite idict_lookup_set_same. rewrite <- Hcounts. unfold idict_get.
      rewrite Hn. lia.
    + rewrite idict_lookup_set_other by exact Hne.
      fold (idict_get (os_file_counts st) s 0%nat). rewrite Hcounts. lia.
  - rewrite map_app, Hcopies. reflexivity.
Qed.

Lemma organize_fold (json_files : list source_file) :
  forall st, organize_inv st ->
    os_results (fold_left organize_file json_files st)
    = os_results st ++ flat_map organized_of json_files
    /\ organize_inv (fold_left organize_file json_files st).
Proof.
  induction json_files as [|f files IH]; intros st Hinv; cbn [fold_left flat_map].
  - split; [now rewrite app_nil_r|exact Hinv].
  - destruct (organize_file_step st f Hinv) as [Hres Hinv'].
    destruct (IH _ Hinv') as [IH1 IH2]. split; [|exact IH2].
    rewrite IH1, Hres. now rewrite <- app_assoc.
Qed.

Lemma initial_organize_inv : organize_inv initial_organize_state.
Proof.
  repeat split. intros sev. unfold idict_get.
  cbn [initial_organize_state os_file_counts os_results map idict_lookup].
  unfold count_severity. cbn [count_occ].
  repeat match goal with |- context [(?k =? sev)%Z] => destruct (k =? sev)%Z end;
    reflexivity.
Qed.

Lemma organized_of_length (f : source_file) : (length (organized_of f) <= 1)%nat.
Proof.
  unfold organized_of.
  destruct (sf_loaded f); [cbn; lia|].
  destruct (classify_severity _); [|cbn; lia].
  destruct (copy_raises f); cbn; lia.
Qed.

Lemma organized_of_range (f : source_file) (r : organized) :
  In r (organized_of f) -> (0 <= o_severity_stage r <= 3)%Z.
Proof.
  unfold organized_of. intros Hr.
  destruct (sf_loaded f) as [e|log_data]; [destruct Hr|].
  destruct (classify_severity log_data) as [v|e] eqn:Hv; [|destruct Hr].
  destruct (copy_raises f); [destruct Hr|]. destruct Hr as [<-|[]].
  now apply (severity_in_range log_data).
Qed.

Lemma organize_entries_range (json_files : list source_file) :
  Forall (fun r => (0 <= o_severity_stage r <= 3)%Z)
         (os_results (classify_and_organize json_files)).
Proof.
  unfold classify_and_organize.
  destruct (organize_fold json_files _ initial_organize_inv) as [H _].
  rewrite H. cbn [initial_organize_state os_results app].
  apply Forall_forall. intros r Hr. apply in_flat_map in Hr as (f & _ & Hr).
  now apply (organized_of_range f).
Qed.

(** X18. The report of [classify_and_organize] holds one entry for every
    file that loads, is classified and is copied, in the order of the files,
    and none for the others: no lookup of a severity in [severity_dirs],
    [file_counts] or [severity_labels] fails. *)
Theorem organize_report (json_files : list source_file) :
  os_results (classify_and_organize json_files) = flat_map organized_of json_files
  /\ (length (os_results (classify_and_organize json_files)) <= length json_files)%nat.
Proof.
  unfold classify_and_organize.
  destruct (organize_fold json_files _ initial_organize_inv) as [H _].
  rewrite H. cbn [initial_organize_state os_results app]. split; [reflexivity|].
  clear H. induction json_files as [|f files IH]; cbn [flat_map length]; [lia|].
  rewrite length_app. pose proof (organized_of_length f). lia.
Qed.

(** X19. Every entry of the report has a severity among 0, 1, 2, 3, names
    the folder of that severity, and keeps between one and three evidence
    entries. *)
Theorem organize_entries_wellformed (json_files : list source_file) :
  Forall (fun r =>
            (0 <= o_severity_stage r <= 3)%Z
            /\ idict_lookup severity_labels (o_severity_stage r)
               = Some (o_destination_folder r)
            /\ (1 <= length (o_evidence_keywords r) <= 3)%nat)
         (os_results (classify_and_organize json_files)).
Proof.
  unfold classify_and_organize.
  destruct (organize_fold json_files _ initial_organize_inv) as [H _].
  rewrite H. cbn [initial_organize_state os_results app].
  apply Forall_forall. intros r Hr. apply in_flat_map in Hr as (f & _ & Hr).
  unfold organized_of in Hr.
  destruct (sf_loaded f) as [e|log_data]; [destruct Hr|].
  destruct (classify_severity log_data) as [v|e] eqn:Hv; [|destruct Hr].
  destruct (copy_raises f); [destruct Hr|]. destruct Hr as [<-|[]].
  pose proof (severity_in_range _ _ Hv) as Hrange.
  pose proof (evidence_nonempty _ _ Hv) as Hne.
  cbn [organize_entry o_severity_stage o_destination_folder o_evidence_keywords].
  destruct (severity_label_lookup _ Hrange) as (label & Hlab & _ & Hget).
  repeat split; try lia.
  - now rewrite Hget.
  - rewrite length_firstn. destruct (evidence_keywords v); [congruence|cbn; lia].
  - rewrite length_firstn. lia.
Qed.

(** X20. The counters agree with the report: [file_counts] keeps the keys
    0, 1, 2, 3, the count of each severity is the number of report entries of
    that severity, and the counts add up to the length of the report. *)
Theorem organize_counts (json_files : list source_file) :
  let st := classify_and_organize json_files in
  map fst (os_file_counts st) = [0; 1; 2; 3]%Z
  /\ (forall sev, idict_get (os_file_counts st) sev 0%nat
                  = count_severity sev (map o_severity_stage (os_results st)))
  /\ idict_total (os_file_counts st) = length (os_results st).
Proof.
  cbv zeta. unfold classify_and_organize.
  destruct (organize_fold json_files _ initial_organize_inv) as [_ (Hkeys & Hcounts & _)].
  split; [exact Hkeys|]. split; [exact Hcounts|].
  pose proof (organize_entries_range json_files) as Hrange.
  unfold classify_and_organize in Hrange.
  set (st := fold_left organize_file json_files initial_organize_state) in *.
  destruct (os_file_counts st) as [|[k0 a] [|[k1 b] [|[k2 c] [|[k3 d] [|]]]]];
    try discriminate.
  injection Hkeys as -> -> -> ->.
  pose proof (Hcounts 0%Z) as H0. pose proof (Hcounts 1%Z) as H1.
  pose proof (Hcounts 2%Z) as H2. pose proof (Hcounts 3%Z) as H3.
  cbn in H0, H1, H2, H3. cbn [idict_total fold_right snd].
  rewrite H0, H1, H2, H3. clear H0 H1 H2 H3 Hcounts.
  induction (os_results st) as [|r rs IH]; [reflexivity|].
  inversion Hrange as [|? ? Hr Hrs]; subst. specialize (IH Hrs).
  cbn [map length]. unfold count_severity in *. cbn [count_occ].
  assert (o_severity_stage r = 0 \/ o_severity_stage r = 1
          \/ o_severity_stage r = 2 \/ o_severity_stage r = 3)%Z
    as [E|[E|[E|E]]] by lia; rewrite E;
    repeat match goal with |- context [Z.eq_dec ?a ?b] => destruct (Z.eq_dec a b) end;
    try discriminate; try congruence; lia.
Qed.

(** X21. The copies agree with the report: the files copied are the files of
    the report, in its order, each into the folder its entry names. *)
Theorem organize_copies (json_files : list source_file) :
  os_copies (classify_and_organize json_files)
  = map (fun r => (o_destination_folder r, o_source_file r))
        (os_results (classify_and_organize json_files)).
Proof.
  unfold classify_and_organize.
  now destruct (organize_fold json_files _ initial_organize_inv) as [_ (_ & _ & H)].
Qed.

Lemma report_core_returned (filepath : Path) (f : source_file)
    (log_data : log_data) (v : verdict) :
  classify_severity log_data = Return v ->
  report_core (analyze_file filepath (Loaded log_data))
  = organized_core (organize_entry f v)
  /\ (r_severity_stage (analyze_file filepath (Loaded log_data)) =? -1)%Z = false.
Proof.
  intros Hv. rewrite (analyze_file_returned filepath log_data v Hv).
  split; [reflexivity|]. cbn [r_severity_stage].
  apply severity_in_range in Hv. apply Z.eqb_neq. lia.
Qed.

(** X22. What [analyze_file] classifies, [classify_and_organize] reports: a
    file whose record is not the ProcessingError record, and whose copy does
    not fail, has an entry in the report under its relative path, with the
    severity, the summary and the confidence of the record and the first
    three of its evidence entries. *)
Theorem analyzed_files_are_organized (json_files : list source_file)
    (f : source_file) (filepath : Path) :
  In f json_files ->
  copy_raises f = None ->
  r_severity_stage (analyze_file filepath (sf_loaded f)) <> ProcessingError ->
  exists entry,
    In entry (os_results (classify_and_organize json_files))
    /\ o_source_file entry = rel_path f
    /\ organized_core entry = report_core (analyze_file filepath (sf_loaded f)).
Proof.
  intros Hin Hcopy Hsev.
  unfold classify_and_organize.
  destruct (organize_fold json_files _ initial_organize_inv) as [H _].
  rewrite H. cbn [initial_organize_state os_results app]. clear H.
  destruct (sf_loaded f) as [e|log_data] eqn:Hload; [now elim Hsev|].
  destruct (classify_severity log_data) as [v|e] eqn:Hv.
  - exists (organize_entry f v). split; [|split].
    + apply in_flat_map. exists f. split; [exact Hin|].
      unfold organized_of. rewrite Hload, Hv, Hcopy. now left.
    + reflexivity.
    + now destruct (report_core_returned filepath f log_data v Hv) as [-> _].
  - destruct (analyze_file_raised filepath log_data e Hv) as [Hs _]. now elim Hsev.
Qed.

(** X6. A list-valued stream anywhere among the streams stops the three
    entry points alike, whatever the other streams and the metadata hold:
    [classify_severity] raises a [TypeError] before any pattern is tried,
    [analyze_file] answers with the ProcessingError record, and the loop of
    [classify_and_organize] passes over the file, leaving report, counters
    and copies as they were. *)
Theorem list_stream_outcomes (log_data : log_data) (filepath : Path)
    (f : source_file) (st : organize_state) :
  has_list_stream log_data ->
  sf_loaded f = Loaded log_data ->
  (exists msg, classify_severity log_data = Raise (TypeError msg))
  /\ r_severity_stage (analyze_file filepath (Loaded log_data)) = ProcessingError
  /\ r_component (analyze_file filepath (Loaded log_data)) = U "Error"
  /\ organize_file st f = st.
Proof.
  intros Hlist Hload.
  destruct (list_stream_raises _ Hlist) as [He _].
  split; [now exists concat_list_str_msg|].
  split; [now apply (analyze_file_raised filepath log_data _ He)|].
  split.
  - unfold analyze_file, analyze_file_with. cbn [bind]. now rewrite He.
  - unfold organize_file. rewrite Hload. cbn [bind]. now rewrite He.
Qed.

(** ** The count of the repeated-connection rule *)

Lemma connect_failed_compiled :
  re_compile (U "connect\(\).*failed") = Some connect_failed_re.
Proof. vm_compute. reflexivity. Qed.

Lemma match_here_star_none (ic : bool) (a : atom) (re : regex) (s : text) :
  match_here isdecimal ic (Star a :: re) s = None ->
  forall u w, s = u ++ w ->
    Forall (fun c => atom_matches isdecimal ic a c = true) u ->
    match_here isdecimal ic re w = None.
Proof.
  intros H u w -> Hu.
  destruct (match_here isdecimal ic re w) eqn:E; [|reflexivity].
  exfalso. apply (match_here_star_complete ic a re u w Hu); [now rewrite E|exact H].
Qed.

(** A greedy star takes the longest repetition after which the rest of the
    pattern matches. *)
Lemma match_here_star_greedy (ic : bool) (a : atom) (re : regex) (s : text) r :
  match_here isdecimal ic (Star a :: re) s = Some r ->
  exists u w,
    s = u ++ w
    /\ Forall (fun c => atom_matches isdecimal ic a c = true) u
    /\ match_here isdecimal ic re w = Some r
    /\ forall u2 w2, w = u2 ++ w2 -> u2 <> [] ->
         Forall (fun c => atom_matches isdecimal ic a c = true) u2 ->
         match_here isdecimal ic re w2 = None.
Proof.
  induction s as [|c s IH].
  - rewrite match_here_star_nil. intros H. exists [], []. repeat split; auto.
    intros u2 w2 E Hne. destruct u2; [congruence|discriminate].
  - rewrite match_here_star_step.
    destruct (atom_matches isdecimal ic a c) eqn:Hc.
    + destruct (match_here isdecimal ic (Star a :: re) s) eqn:Hs.
      * intros E. injection E as <-.
        destruct (IH eq_refl) as (u & w & -> & Hu & Hw & Hmax).
        exists (c :: u), w. repeat split; auto.
      * intros H. exists [], (c :: s). repeat split; auto.
        intros u2 w2 E Hne Hu2. destruct u2 as [|c2 u2]; [congruence|].
        injection E as <- ->. inversion Hu2; subst.
        eapply match_here_star_none; eauto.
    + intros H. exists [], (c :: s). repeat split; auto.
      intros u2 w2 E Hne Hu2. destruct u2 as [|c2 u2]; [congruence|].
      injection E as <- ->. inversion Hu2; subst. congruence.
Qed.

Lemma one_line_any (u : text) :
  one_line u <-> Forall (fun c => atom_matches isdecimal false AnyChar c = true) u.
Proof.
  unfold one_line. split; apply Forall_impl; intros c; cbn [atom_matches];
    destruct (c =? NL)%N; cbn [negb]; congruence.
Qed.

Lemma one_line_app (u v : text) : one_line (u ++ v) <-> one_line u /\ one_line v.
Proof. apply Forall_app. Qed.

Lemma match_here_lit (ic : bool) (l s : text) :
  match_here isdecimal ic (lit l) (l ++ s) = Some ([], s).
Proof.
  pose proof (match_here_lit_app ic l [] s) as H. now rewrite app_nil_r in H.
Qed.

Lemma match_here_lit_inv (l s : text) r :
  match_here isdecimal false (lit l) s = Some r ->
  exists rest, s = l ++ rest /\ r = ([], rest).
Proof.
  intros H. rewrite <- (app_nil_r (lit l)) in H.
  destruct (match_here_lit_head l [] s r H) as (rest & -> & E).
  exists rest. split; [reflexivity|]. cbn in E. now injection E as <-.
Qed.

Lemma match_here_lit_none (ic : bool) (l s : text) :
  match_here isdecimal ic (lit l) s = None -> starts_with l s = false.
Proof.
  intros H. destruct (starts_with l s) eqn:E; [|reflexivity].
  destruct (starts_with_split l s E) as (post & ->).
  rewrite match_here_lit in H. discriminate.
Qed.

Lemma skipn_length_app (u v : text) : skipn (length u) (u ++ v) = v.
Proof. induction u; cbn [length skipn app]; auto. Qed.

Lemma contains_then_eq (a b s : text) :
  contains_then a b s =
  starts_with a s && contains b (skipn (length a) s)
  || match s with
     | [] => false
     | _ :: s' => contains_then a b s'
     end.
Proof. destruct s; reflexivity. Qed.

Lemma contains_then_iff (a b s : text) :
  contains_then a b s = true <->
  exists pre mid post, s = pre ++ a ++ mid ++ b ++ post.
Proof.
  split.
  - induction s as [|c s IH]; rewrite contains_then_eq; intros H;
      apply orb_true_iff in H; destruct H as [H|H].
    + apply andb_true_iff in H. destruct H as [H1 H2].
      destruct (starts_with_split _ _ H1) as (t & E). rewrite E in H2 |- *.
      rewrite skipn_length_app in H2.
      destruct (contains_split _ _ H2) as (mid & post & ->). now exists [], mid, post.
    + discriminate.
    + apply andb_true_iff in H. destruct H as [H1 H2].
      destruct (starts_with_split _ _ H1) as (t & E). rewrite E in H2 |- *.
      rewrite skipn_length_app in H2.
      destruct (contains_split _ _ H2) as (mid & post & ->). now exists [], mid, post.
    + destruct (IH H) as (pre & mid & post & ->). now exists (c :: pre), mid, post.
  - intros (pre & mid & post & ->). induction pre as [|c pre IH].
    + rewrite contains_then_eq. cbn [app]. rewrite starts_with_app, skipn_length_app.
      now rewrite contains_app.
    + cbn [app contains_then]. rewrite IH. apply orb_true_r.
Qed.

Lemma lines_nonempty (s : text) : lines s <> [].
Proof.
  destruct s as [|c s]; cbn [lines]; [discriminate|].
  destruct (c =? NL)%N; [discriminate|]. destruct (lines s); discriminate.
Qed.

Lemma lines_cons (s : text) : exists l ls, lines s = l :: ls.
Proof.
  destruct (lines s) as [|l ls] eqn:E; [now apply lines_nonempty in E|eauto].
Qed.

Lemma lines_app (u v l : text) (ls : list text) :
  one_line u -> lines v = l :: ls -> lines (u ++ v) = (u ++ l) :: ls.
Proof.
  intros Hu Hv. induction Hu as [|c u Hc Hu IH]; cbn [app lines]; [exact Hv|].
  now rewrite Hc, IH.
Qed.

Lemma lines_split (s l : text) (ls : list text) :
  lines s = l :: ls -> one_line l /\ exists tail, s = l ++ tail.
Proof.
  revert l ls. induction s as [|c s IH]; intros l ls; cbn [lines].
  - intros E. injection E as <- <-. split; [constructor|now exists []].
  - destruct (c =? NL)%N eqn:Hc.
    + intros E. injection E as <- <-. split; [constructor|now exists (c :: s)].
    + destruct (lines s) as [|l' ls'] eqn:E'.
      * now apply lines_nonempty in E'.
      * intros E. injection E as <- <-.
        destruct (IH l' ls' eq_refl) as (Hl & tail & Es).
        split; [now constructor|]. exists tail. cbn [app]. now rewrite <- Es.
Qed.

Lemma lines_one_line (s : text) : Forall one_line (lines s).
Proof.
  induction s as [|c s IH]; cbn [lines].
  - repeat constructor.
  - destruct (c =? NL)%N eqn:Hc.
    + constructor; [constructor|exact IH].
    + destruct (lines s) as [|l ls]; [repeat constructor; exact Hc|].
      inversion IH; subst. constructor; [now constructor|assumption].
Qed.

Section LineCount.

Variables a b : text.
Hypothesis a_nonempty : a <> [].
Hypothesis a_one_line : one_line a.
Hypothesis b_one_line : one_line b.

Lemma then_match_inv (s : text) r :
  match_here isdecimal false (then_re a b) s = Some r ->
  exists x rest,
    r = ([], rest) /\ s = a ++ x ++ b ++ rest /\ one_line x
    /\ forall u2 w2, b ++ rest = u2 ++ w2 -> u2 <> [] -> one_line u2 ->
         starts_with b w2 = false.
Proof.
  unfold then_re. intros H.
  destruct (match_here_lit_head _ _ _ _ H) as (s' & -> & H').
  cbn [app] in H'.
  destruct (match_here_star_greedy _ _ _ _ _ H') as (x & w & -> & Hx & Hw & Hmax).
  destruct (match_here_lit_inv _ _ _ Hw) as (rest & -> & ->).
  exists x, rest. repeat split; auto.
  - now apply one_line_any.
  - intros u2 w2 E Hne Hu2. apply (match_here_lit_none false).
    apply (Hmax u2 w2 E Hne). now apply one_line_any.
Qed.

Lemma then_match_intro (x y : text) :
  one_line x ->
  match_here isdecimal false (then_re a b) (a ++ x ++ b ++ y) <> None.
Proof.
  intros Hx. unfold then_re. rewrite match_here_lit_app. cbn [app].
  apply match_here_star_complete; [now apply one_line_any|].
  now rewrite match_here_lit.
Qed.

Lemma then_no_match_nil : match_here isdecimal false (then_re a b) [] = None.
Proof.
  destruct (match_here isdecimal false (then_re a b) []) eqn:E; [|reflexivity].
  destruct (then_match_inv _ _ E) as (x & rest & _ & H & _).
  destruct a; [congruence|discriminate].
Qed.

Lemma then_no_match_nl (s : text) :
  match_here isdecimal false (then_re a b) (NL :: s) = None.
Proof.
  destruct (match_here isdecimal false (then_re a b) (NL :: s)) eqn:E; [|reflexivity].
  destruct (then_match_inv _ _ E) as (x & rest & _ & H & _).
  destruct a as [|a0 a']; [congruence|]. injection H as <- _.
  inversion a_one_line; subst. discriminate.
Qed.

Lemma then_hit_nil : then_hit a b [] = false.
Proof. unfold then_hit. cbn [search_from]. now rewrite then_no_match_nil. Qed.

Lemma then_hit_contains (l : text) :
  one_line l -> then_hit a b l = contains_then a b l.
Proof.
  intros Hl. apply eq_true_iff_eq. unfold then_hit.
  rewrite is_match_search_iff, contains_then_iff. split.
  - intros (pre & t & -> & H).
    destruct (match_here isdecimal false (then_re a b) t) as [r|] eqn:E; [|congruence].
    destruct (then_match_inv _ _ E) as (x & rest & _ & -> & _).
    now exists pre, x, rest.
  - intros (pre & mid & post & ->).
    exists pre, (a ++ mid ++ b ++ post). split; [reflexivity|].
    apply then_match_intro.
    apply one_line_app in Hl. destruct Hl as [_ Hl].
    apply one_line_app in Hl. destruct Hl as [_ Hl].
    now apply one_line_app in Hl.
Qed.

(** After a match, no further match starts in the same line. *)
Lemma then_match_last (s : text) (rest l : text) (ls : list text) marks :
  match_here isdecimal false (then_re a b) s = Some (marks, rest) ->
  lines rest = l :: ls ->
  then_hit a b l = false.
Proof.
  intros Hm Hl.
  destruct (then_match_inv _ _ Hm) as (x & rest0 & E & _ & _ & Hmax).
  injection E as _ <-.
  destruct (lines_split _ _ _ Hl) as (Hone & tail & Erest).
  destruct (then_hit a b l) eqn:Hhit; [|reflexivity]. exfalso.
  unfold then_hit in Hhit. apply is_match_search_iff in Hhit.
  destruct Hhit as (pre & t & -> & Ht).
  destruct (match_here isdecimal false (then_re a b) t) as [r|] eqn:Et; [|congruence].
  destruct (then_match_inv _ _ Et) as (x' & rest' & _ & -> & _ & _).
  apply one_line_app in Hone. destruct Hone as [Hpre Hone].
  apply one_line_app in Hone. destruct Hone as [_ Hone].
  apply one_line_app in Hone. destruct Hone as [Hx' _].
  assert (Hfalse : starts_with b (b ++ rest' ++ tail) = false).
  { apply (Hmax (b ++ pre ++ a ++ x')).
    - rewrite Erest. now rewrite <- !app_assoc.
    - intros E. apply app_eq_nil in E. destruct E as [_ E].
      apply app_eq_nil in E. destruct E as [_ E].
      apply app_eq_nil in E. now destruct E.
    - repeat (apply one_line_app; split); assumption. }
  now rewrite starts_with_app in Hfalse.
Qed.

Lemma then_hit_cons_none (c : N) (l post : text) :
  match_here isdecimal false (then_re a b) ((c :: l) ++ post) = None ->
  then_hit a b (c :: l) = then_hit a b l.
Proof.
  intros H. unfold then_hit. cbn [search_from].
  destruct (match_here isdecimal false (then_re a b) (c :: l)) eqn:E; [|reflexivity].
  exfalso. apply (match_here_extend false (then_re a b) (c :: l) post); [now rewrite E|exact H].
Qed.

Lemma findall_then_lines (s : text) :
  forall skip l ls,
    lines s = l :: ls -> (skip <= length l)%nat ->
    length (findall_from isdecimal false (then_re a b) skip s)
    = ((if then_hit a b (skipn skip l) then 1 else 0)
       + length (filter (then_hit a b) ls))%nat.
Proof.
  induction s as [|c s IH]; intros skip l ls Hl Hskip.
  - cbn [lines] in Hl. injection Hl as <- <-. cbn [length] in Hskip.
    assert (skip = 0%nat) by lia. subst skip.
    cbn [findall_from skipn filter length]. now rewrite then_no_match_nil, then_hit_nil.
  - cbn [lines] in Hl. destruct (c =? NL)%N eqn:Hc.
    + injection Hl as <- <-. cbn [length] in Hskip.
      assert (skip = 0%nat) by lia. subst skip.
      apply N.eqb_eq in Hc. subst c.
      cbn [findall_from skipn]. rewrite then_no_match_nl, then_hit_nil.
      destruct (lines_cons s) as (l' & ls' & E).
      rewrite (IH 0%nat l' ls' E (Nat.le_0_l _)), E. cbn [skipn filter].
      destruct (then_hit a b l'); reflexivity.
    + destruct (lines s) as [|l' ls'] eqn:E; [now apply lines_nonempty in E|].
      injection Hl as <- <-. destruct skip as [|k].
      * cbn [findall_from skipn].
        destruct (match_here isdecimal false (then_re a b) (c :: s))
          as [[marks rest]|] eqn:Hm.
        -- destruct (then_match_inv _ _ Hm) as (x & rest0 & Er & Es & Hx & _).
           injection Er as _ <-.
           assert (Ha : exists a', a = c :: a' /\ s = a' ++ x ++ b ++ rest
                                   /\ one_line a').
           { pose proof a_one_line as Hone. pose proof a_nonempty as Hne.
             destruct a as [|a0 a']; [congruence|].
             cbn [app] in Es. injection Es as <- Es.
             exists a'. inversion Hone; subst. auto. }
           destruct Ha as (a' & Ea & Es' & Ha').
           assert (Hu : one_line (a' ++ x ++ b))
             by (repeat (apply one_line_app; split); assumption).
           destruct (lines_cons rest) as (hd & tl & Erest).
           assert (El : l' :: ls' = ((a' ++ x ++ b) ++ hd) :: tl).
           { rewrite <- E, Es'.
             rewrite <- (lines_app (a' ++ x ++ b) rest hd tl Hu Erest).
             now rewrite <- !app_assoc. }
           injection El as -> ->.
           assert (Elen : (length (c :: s) - length rest - 1)%nat
                          = length (a' ++ x ++ b)).
           { rewrite Es'. cbn [length]. rewrite !length_app. lia. }
           rewrite Elen. cbn [length].
           rewrite (IH _ _ _ eq_refl); [|rewrite (length_app (a' ++ x ++ b) hd); lia].
           rewrite skipn_length_app.
           rewrite (then_match_last _ _ _ _ _ Hm Erest).
           assert (Hhit : then_hit a b (c :: (a' ++ x ++ b) ++ hd) = true).
           { unfold then_hit. apply search_from_here.
             replace (c :: (a' ++ x ++ b) ++ hd) with (a ++ x ++ b ++ hd)
               by (rewrite Ea; cbn [app]; now rewrite <- !app_assoc).
             now apply then_match_intro. }
           rewrite Hhit. reflexivity.
        -- rewrite (IH 0%nat l' ls' eq_refl (Nat.le_0_l _)). cbn [skipn].
           destruct (lines_split _ _ _ E) as (_ & tail & Es).
           rewrite Es in Hm.
           now rewrite (then_hit_cons_none c l' tail Hm).
      * cbn [findall_from skipn]. apply (IH k l' ls' eq_refl).
        cbn [length] in Hskip. lia.
Qed.

Lemma findall_then_count (s : text) :
  length (findall_from isdecimal false (then_re a b) 0 s)
  = length (filter (contains_then a b) (lines s)).
Proof.
  destruct (lines_cons s) as (l & ls & E).
  rewrite (findall_then_lines s 0%nat l ls E (Nat.le_0_l _)).
  assert (Hext : forall L, Forall one_line L ->
                   filter (then_hit a b) L = filter (contains_then a b) L).
  { intros L HL. induction HL as [|l0 ls0 Hl0 _ IH]; [reflexivity|].
    cbn [filter]. now rewrite IH, (then_hit_contains l0 Hl0). }
  rewrite <- (Hext _ (lines_one_line s)), E. cbn [skipn filter].
  destruct (then_hit a b l); reflexivity.
Qed.

End LineCount.

Lemma connect_failure_count_lines (ue_log : text) :
  connect_failure_count ue_log = length (filter connect_failed_line (lines ue_log)).
Proof.
  unfold connect_failure_count, re_findall. rewrite connect_failed_compiled.
  unfold connect_failed_re, connect_failed_line.
  apply findall_then_count.
  - vm_compute. discriminate.
  - vm_compute. repeat constructor.
  - vm_compute. repeat constructor.
Qed.

(** X23. The count of the repeated-connection rule is a count of lines: the
    number compared with ten is the number of lines of the UE stream in which
    connect() is followed, later in the same line, by failed; several
    failures reported in one line count once, so the count never exceeds the
    number of lines. *)
Theorem connect_failures_count_lines (ue_log : text) :
  connect_failure_count ue_log = length (filter connect_failed_line (lines ue_log))
  /\ (connect_failure_count ue_log <= length (lines ue_log))%nat.
Proof.
  split; [apply connect_failure_count_lines|].
  rewrite connect_failure_count_lines. apply filter_length_le.
Qed.

(** X24. A UE stream of at most ten lines never sets off the
    repeated-connection rule, however many failed connects its lines report:
    no verdict of such a bundle has confidence 0.80. *)
Theorem short_ue_stream_never_repeated (log_data : log_data) (ue_log : text) :
  ue_log_of log_data = Str ue_log ->
  (length (lines ue_log) <= 10)%nat ->
  fired_rule log_data <> Return RepeatedConnectRule
  /\ forall v, classify_severity log_data = Return v -> ~ confidence v == 0.80.
Proof.
  intros Hlog Hlines.
  assert (Hcount : (10 <? length (re_findall (U "connect\(\).*failed") ue_log))%nat
                   = false).
  { apply Nat.ltb_ge. fold (connect_failure_count ue_log).
    rewrite connect_failure_count_lines.
    etransitivity; [apply filter_length_le|exact Hlines]. }
  assert (Hfired : fired_rule log_data <> Return RepeatedConnectRule).
  { unfold ue_log_of in Hlog.
    destruct (corpus log_data) as [all_logs|e] eqn:Hc.
    - enter_cascade Hc all_logs. rewrite Hlog.
      cbn [py_in len_findall bind]. rewrite Hcount.
      repeat match goal with
             | |- context [if ?b then _ else _] => destruct b
             end; cbn [bind]; discriminate.
    - unfold fired_rule. unfold corpus in Hc. rewrite Hc. cbn [bind]. discriminate. }
  split; [exact Hfired|].
  intros v Hv. destruct (classify_fired _ _ Hv) as (r & Hr & _ & Hconf).
  rewrite Hconf.
  destruct r; try (now elim Hfired); cbn [rule_confidence]; unfold Qeq; cbn; lia.
Qed.
End Classifier.

(** ** The statements at concrete bundles

    The digit table is instantiated with the ASCII digits; the bundles below
    hold ASCII text only. *)

Ltac by_computation :=
  repeat match goal with |- _ /\ _ => split end;
  vm_compute; first [reflexivity | lia].

(** A crash after a partial success is reported as a crash. *)
Lemma crash_precedence_witness :
  exists root_cause evidence,
    classify_severity ascii_isdecimal crash_after_success
      = Return (ComponentCrash, root_cause, evidence, 0.95).
Proof.
  refine (crash_precedence ascii_isdecimal crash_after_success
            (U "RRC_CONNECTED reached" ++ [NL]
               ++ U "Received PDU Session Establishment Accept" ++ [NL]
               ++ U "Segmentation fault (core dumped)" ++ [NL])
            (U "Segmentation fault") _ _ _).
  - vm_compute. reflexivity.
  - cbn [crash_patterns map In]. do 4 right; left; reflexivity.
  - vm_compute. reflexivity.
Defined.

(** C2, the claim as stated fails: no severity value distinct from NoError is
    returned on every uncertain input; the empty bundle gets 0. *)
Lemma uncertain_case_returns_NoError_code :
  ~ exists Unknown : Z,
      Unknown <> NoError
      /\ forall log_data,
           uncertain_input ascii_isdecimal log_data ->
           exists root_cause evidence,
             classify_severity ascii_isdecimal log_data
               = Return (Unknown, root_cause, evidence, 0.30).
Proof.
  intros (Unknown & Hne & H).
  destruct (H empty_bundle) as (root_cause & evidence & E).
  { exists [], []. by_computation. }
  apply Return_inj in E. apply (f_equal severity_stage) in E.
  vm_compute in E. now subst Unknown.
Qed.

(** Ten refused connections under the UE key are an uncertain case. *)
Lemma uncertain_case_verdict_witness :
  classify_severity ascii_isdecimal (ue_retries 10) =
    Return (NoError,
            U "無法判斷：log 資訊不足以明確分類，檔案 " ++ filename_of (ue_retries 10),
            [U "Insufficient log information"],
            0.30)
  /\ fired_rule ascii_isdecimal (ue_retries 10) = Return UncertainRule.
Proof.
  apply (uncertain_case_verdict ascii_isdecimal (ue_retries 10)).
  exists (connect_lines 10 ++ [NL]), (connect_lines 10).
  by_computation.
Defined.

(** The success scenario of the spec. *)
Lemma success_corroboration_witness :
  classify_severity ascii_isdecimal success_scenario =
    Return (NoError,
            U "無錯誤：在 unknown 中 UE 成功建立連線並獲取 IP，所有主要流程正常完成",
            [U "PDU Session Establishment Accept";
             U "RRC_CONNECTED reached";
             U "Received PDU Session Establishment Accept";
             U "IPv4配置成功: IPv4 10.0.0.5"],
            0.90).
Proof.
  rewrite (success_corroboration ascii_isdecimal success_scenario
             (U "Received PDU Session Establishment Accept, RRC_CONNECTED reached, IPv4 10.0.0.5" ++ [NL])).
  - vm_compute. reflexivity.
  - vm_compute. reflexivity.
  - vm_compute. reflexivity.
  - vm_compute. lia.
Defined.

(** C4, the claim as stated fails: with a metadata [error_type], a lone
    success keyword gets the metadata fallback, ComponentAbnormal at 0.50. *)
Lemma residual_success_needs_empty_error_type :
  ~ forall log_data,
      lone_success_input ascii_isdecimal log_data ->
      exists root_cause evidence,
        classify_severity ascii_isdecimal log_data
          = Return (NoError, root_cause, evidence, 0.70).
Proof.
  intros H.
  destruct (H lone_success_with_error_type) as (root_cause & evidence & E).
  { exists (U "RA procedure succeeded" ++ [NL]).
    by_computation. }
  apply Return_inj in E. apply (f_equal severity_stage) in E.
  vm_compute in E. discriminate.
Qed.

(** The same keyword without [error_type]. *)
Lemma residual_success_witness :
  exists root_cause evidence,
    classify_severity ascii_isdecimal lone_success
      = Return (NoError, root_cause, evidence, 0.70)
    /\ fired_rule ascii_isdecimal lone_success = Return ResidualSuccessRule.
Proof.
  apply (residual_success ascii_isdecimal lone_success).
  - exists (U "RA procedure succeeded" ++ [NL]).
    by_computation.
  - vm_compute. reflexivity.
Defined.

(** Ten refused connections leave the rule silent, eleven fire it. *)
Lemma repeated_connection_threshold_witness :
  fired_rule ascii_isdecimal (ue_retries 10) <> Return RepeatedConnectRule
  /\ classify_severity ascii_isdecimal (ue_retries 11) =
       Return (ConnectionFailure,
               U "UE 連線失敗：UE 無法連接到 DU (重試 11 次)",
               [U "11 connection attempts failed"],
               0.80).
Proof.
  split.
  - refine (proj1 (proj1 (repeated_connection_threshold ascii_isdecimal (ue_retries 10)
                            (connect_lines 10 ++ [NL])
                            (connect_lines 10) _ _ _ _ _ _ _ _) _));
      vm_compute; reflexivity.
  - refine (proj1 (proj2 (repeated_connection_threshold ascii_isdecimal (ue_retries 11)
                            (connect_lines 11 ++ [NL])
                            (connect_lines 11) _ _ _ _ _ _ _ _) _));
      vm_compute; reflexivity.
Defined.

(** C6, the claim as stated fails: a stream given as a list of lines is of
    the documented shape, and its lines are not joined with newlines:
    [classify_severity] raises and gives no verdict. *)
Lemma list_valued_stream_not_total :
  ~ forall log_data,
      documented_shape log_data ->
      exists v, classify_severity ascii_isdecimal log_data = Return v.
Proof.
  intros H. destruct (H list_valued_stream) as [v Hv].
  - intros items key content E Hin. injection E as <-.
    destruct Hin as [E|[]]. injection E as _ <-. right. eexists. reflexivity.
  - vm_compute in Hv. discriminate.
Qed.

(** A crash after a partial success, three streams of text, gets a verdict. *)
Lemma total_on_text_streams_witness :
  exists v, classify_severity ascii_isdecimal crash_after_success = Return v
            /\ (0 <= severity_stage v <= 3)%Z.
Proof.
  apply (total_on_text_streams ascii_isdecimal crash_after_success).
  intros items key content E Hin. vm_compute in E. injection E as <-.
  destruct Hin as [E|[E|[E|[]]]]; injection E as _ <-; eexists; reflexivity.
Defined.

(** C7, the claim as stated fails: when another assertion line comes first,
    the evidence cites that line's expression and not the scenario's. *)
Lemma assertion_scenario_not_leftmost :
  ~ forall log_data all_logs,
      corpus log_data = Return all_logs ->
      contains scenario_assertion all_logs = true ->
      exists root_cause evidence,
        classify_severity ascii_isdecimal log_data
          = Return (ComponentCrash, root_cause, evidence, 0.95)
        /\ cites evidence scenario_expression.
Proof.
  intros H.
  destruct (H two_assertions
              (U "Assertion (x) failed" ++ [NL] ++ scenario_assertion ++ [NL]))
    as (root_cause & evidence & E & entry & Hin & Hentry);
    [vm_compute; reflexivity..|].
  apply Return_inj in E. apply (f_equal evidence_keywords) in E.
  cbn [evidence_keywords fst snd] in E. subst evidence.
  vm_compute in Hin.
  destruct Hin as [<-|[<-|[]]]; vm_compute in Hentry; discriminate.
Qed.

(** The scenario's line alone. *)
Lemma assertion_extraction_witness :
  exists root_cause,
    classify_severity ascii_isdecimal assertion_scenario =
      Return (ComponentCrash, root_cause,
              [U "Assertion.*failed";
               U "Assertion: num_tx >= config.pdsch_AntennaPorts.XP"],
              0.95).
Proof.
  assert (Hc : corpus assertion_scenario = Return (scenario_assertion ++ [NL]))
    by (vm_compute; reflexivity).
  destruct (assertion_extraction ascii_isdecimal assertion_scenario
              (scenario_assertion ++ [NL]) Hc) as [_ H].
  destruct (H [] [NL] (eq_sym (app_nil_l _))) as [_ H'].
  destruct H' as [root_cause E].
  - intros i Hi. inversion Hi.
  - exists root_cause. rewrite E. vm_compute. reflexivity.
Defined.

(** A verdict and its constant. *)
Lemma confidence_is_rule_constant_witness :
  In 0.80 confidence_constants
  /\ 0 <= 0.80 <= 1
  /\ exists r, fired_rule ascii_isdecimal (ue_retries 11) = Return r
               /\ 0.80 = rule_confidence r.
Proof.
  apply (confidence_is_rule_constant ascii_isdecimal (ue_retries 11)
           (ConnectionFailure,
            U "UE 連線失敗：UE 無法連接到 DU (重試 11 次)",
            [U "11 connection attempts failed"],
            0.80)).
  vm_compute. reflexivity.
Defined.

(** Twenty refused connections under the key "ue.stdout" do not fire the
    rule. *)
Lemma ue_stream_key_specificity_witness :
  fired_rule ascii_isdecimal retries_under_other_key <> Return RepeatedConnectRule
  /\ forall v, classify_severity ascii_isdecimal retries_under_other_key = Return v ->
               ~ confidence v == 0.80.
Proof.
  apply (ue_stream_key_specificity ascii_isdecimal retries_under_other_key).
  left. vm_compute. reflexivity.
Defined.

(** The spec's scenario of an empty corpus with a metadata [error_type]. *)
Example metadata_fallback_scenario :
  exists root_cause evidence,
    classify_severity ascii_isdecimal (bundle [] [("error_type", "invalid_value")]%string)
      = Return (ComponentAbnormal, root_cause, evidence, 0.50).
Proof. eexists _, _. vm_compute. reflexivity. Qed.

(** A stream given as a list of lines makes [classify_severity] raise the
    [TypeError] of [list + str]. *)
Example list_valued_stream_raises :
  classify_severity ascii_isdecimal list_valued_stream
  = Raise (TypeError concat_list_str_msg).
Proof. vm_compute. reflexivity. Qed.

(** [analyze_file] turns the [TypeError] of a list-valued stream into the
    ProcessingError record. *)
Example analyze_file_list_valued_stream :
  r_severity_stage (analyze_file ascii_isdecimal sample_path (Loaded list_valued_stream))
    = ProcessingError
  /\ r_evidence_keywords (analyze_file ascii_isdecimal sample_path (Loaded list_valued_stream))
     = [concat_list_str_msg].
Proof. split; vm_compute; reflexivity. Qed.

(** ** The further properties at concrete inputs *)

Lemma tier_hits_case_insensitive_witness :
  check_patterns ascii_isdecimal (U "Segmentation Fault") crash_patterns
  = check_patterns ascii_isdecimal (U "SEGMENTATION fault") crash_patterns.
Proof.
  apply (tier_hits_case_insensitive ascii_isdecimal).
  - unfold same_modulo_case. vm_compute. repeat constructor.
  - cbn [pattern_catalog In]. left; reflexivity.
Defined.

Lemma tier_hits_monotone_witness :
  tier_fires ascii_isdecimal (U "[HW] " ++ U "fatal" ++ U " error") crash_patterns = true
  /\ incl (snd (check_patterns ascii_isdecimal (U "fatal") crash_patterns))
          (snd (check_patterns ascii_isdecimal (U "[HW] " ++ U "fatal" ++ U " error")
                  crash_patterns)).
Proof.
  apply (tier_hits_monotone ascii_isdecimal (U "fatal") (U "[HW] ") (U " error")
           crash_patterns).
  - cbn [pattern_catalog In]. left; reflexivity.
  - vm_compute. reflexivity.
Defined.

Lemma tier_hits_stream_order_witness :
  check_patterns ascii_isdecimal
    (U "RRC_CONNECTED reached" ++ [NL]
       ++ U "Received PDU Session Establishment Accept" ++ [NL]
       ++ U "Segmentation fault (core dumped)" ++ [NL])
    success_patterns
  = check_patterns ascii_isdecimal
      (U "Segmentation fault (core dumped)" ++ [NL]
         ++ U "RRC_CONNECTED reached" ++ [NL]
         ++ U "Received PDU Session Establishment Accept" ++ [NL])
      success_patterns.
Proof.
  refine (tier_hits_stream_order ascii_isdecimal
            crash_after_success crash_after_success_reordered
            _ _ _ _ success_patterns eq_refl eq_refl _ _ _ _).
  - cbn [map]. eapply perm_trans; [apply perm_skip, perm_swap|apply perm_swap].
  - vm_compute. reflexivity.
  - vm_compute. reflexivity.
  - cbn [pattern_catalog In]. do 3 right; left; reflexivity.
Defined.

Lemma crash_survives_added_streams_witness :
  exists root_cause evidence,
    classify_severity ascii_isdecimal crash_among_streams
    = Return (ComponentCrash, root_cause, evidence, 0.95).
Proof.
  assert (Hv : exists v, classify_severity ascii_isdecimal crash_alone = Return v
                         /\ severity_stage v = ComponentCrash)
    by (eexists; split; vm_compute; reflexivity).
  destruct Hv as (v & Hv & Hs).
  refine (crash_survives_added_streams ascii_isdecimal crash_alone crash_among_streams
            [(U "du.stdout.log", Str (U "Segmentation fault"))]
            [(U "cu.stdout.log", Str (U "RRC_CONNECTED reached"))]
            [(U "ue.stdout.log", Str (U "Received PDU Session Establishment Accept"))]
            v eq_refl eq_refl _ Hv Hs).
  intros items key content Hl Hin. injection Hl as <-.
  cbn [map In] in Hin.
  destruct Hin as [E|[E|[E|[]]]]; injection E as <- <-; eexists; reflexivity.
Defined.

Lemma verdict_invariants_witness :
  (0 <= 2 <= 3)%Z
  /\ [U "Config error: invalid_value"; U "Impact: "] <> [].
Proof.
  apply (verdict_invariants ascii_isdecimal lone_success_with_error_type
           (2%Z,
            U "可能異常：配置錯誤 (invalid_value) 在 unknown，但 log 中無明確崩潰或失敗訊息",
            [U "Config error: invalid_value"; U "Impact: "],
            0.50)).
  vm_compute. reflexivity.
Defined.

Lemma ue_failure_verdict_witness :
  classify_severity ascii_isdecimal ue_failure_with_errors =
    Return (ConnectionFailure,
            U "UE 連線失敗：組件啟動正常但 UE 無法完成連線，在 NAS 模組偵測到失敗",
            [U "Registration.*reject"],
            0.85).
Proof.
  destruct (ue_failure_verdict ascii_isdecimal ue_failure_with_errors
              (U "[NGAP] ERROR: unexpected message" ++ [NL]
                 ++ U "[NAS] Registration reject, cause 7" ++ [NL])) as [H _];
    [vm_compute; reflexivity..|].
  rewrite H. vm_compute. reflexivity.
Defined.

Lemma abnormal_verdict_witness :
  classify_severity ascii_isdecimal abnormal_only =
    Return (ComponentAbnormal,
            U "組件異常運行：在 du_case_007.json 中 Unknown 模組出現錯誤但未崩潰，",
            [U "timeout.*exceeded"],
            0.70).
Proof.
  destruct (abnormal_verdict ascii_isdecimal abnormal_only
              (U "[MAC] timeout of timer T300 exceeded" ++ [NL])) as [H _];
    [vm_compute; reflexivity..|].
  rewrite H. vm_compute. reflexivity.
Defined.

Lemma metadata_fallback_verdict_witness :
  classify_severity ascii_isdecimal lone_success_with_error_type =
    Return (ComponentAbnormal,
            U "可能異常：配置錯誤 (invalid_value) 在 unknown，但 log 中無明確崩潰或失敗訊息",
            [U "Config error: invalid_value"; U "Impact: "],
            0.50).
Proof.
  destruct (metadata_fallback_verdict ascii_isdecimal lone_success_with_error_type
              (U "RA procedure succeeded" ++ [NL]) []) as [H _].
  - vm_compute. reflexivity.
  - vm_compute. reflexivity.
  - vm_compute. reflexivity.
  - vm_compute. reflexivity.
  - vm_compute. reflexivity.
  - vm_compute. reflexivity.
  - left. vm_compute. reflexivity.
  - vm_compute. discriminate.
  - rewrite H. vm_compute. reflexivity.
Defined.

Lemma success_disables_heuristic_witness :
  fired_rule ascii_isdecimal retries_with_success <> Return RepeatedConnectRule
  /\ forall v, classify_severity ascii_isdecimal retries_with_success = Return v ->
               ~ confidence v == 0.80.
Proof.
  apply (success_disables_heuristic ascii_isdecimal retries_with_success
           (connect_lines 11 ++ U "RA procedure succeeded" ++ [NL])).
  - vm_compute. reflexivity.
  - vm_compute. reflexivity.
Defined.

Lemma unreadable_log_placeholder_witness :
  tier_fires ascii_isdecimal
    (U "Error reading log: [Errno 13] Permission denied") abnormal_patterns = true
  /\ In (U "ERROR")
        (snd (check_patterns ascii_isdecimal
                (U "Error reading log: [Errno 13] Permission denied") abnormal_patterns)).
Proof.
  apply (unreadable_log_placeholder_is_abnormal ascii_isdecimal).
  vm_compute. reflexivity.
Defined.

Lemma extract_component_du_priority_witness :
  extract_component_from_filename (U "conf/" ++ U "cu_module" ++ U ".conf") = U "DU"
  /\ extract_component_from_filename (upper (U "conf/" ++ U "cu_module" ++ U ".conf"))
     = U "DU".
Proof.
  apply (extract_component_du_priority (U "cu_module") (U "conf/") (U ".conf")).
  vm_compute. reflexivity.
Defined.

Lemma confidence_bands_witness :
  let r := analyze_file ascii_isdecimal sample_path (Loaded crash_alone) in
  (In r (high_conf [r]) <->
   exists log_data, Loaded crash_alone = Loaded log_data
     /\ (fired_rule ascii_isdecimal log_data = Return CrashRule
         \/ fired_rule ascii_isdecimal log_data = Return SuccessRule
         \/ fired_rule ascii_isdecimal log_data = Return UEFailureRule))
  /\ (In r (low_conf [r]) <->
      r_severity_stage r = ProcessingError
      \/ exists log_data, Loaded crash_alone = Loaded log_data
           /\ (fired_rule ascii_isdecimal log_data = Return MetadataRule
               \/ fired_rule ascii_isdecimal log_data = Return UncertainRule)).
Proof.
  intros r.
  apply (confidence_bands ascii_isdecimal sample_path (Loaded crash_alone) [r]).
  now left.
Defined.

Lemma analyzed_files_are_organized_witness :
  exists entry,
    In entry (os_results (classify_and_organize ascii_isdecimal sample_files))
    /\ o_source_file entry = U "op1/case_1.json"
    /\ organized_core entry
       = report_core (analyze_file ascii_isdecimal sample_path (Loaded crash_alone)).
Proof.
  apply (analyzed_files_are_organized ascii_isdecimal sample_files
           {| rel_path := U "op1/case_1.json";
              sf_loaded := Loaded crash_alone;
              copy_raises := None |}
           sample_path).
  - left. reflexivity.
  - reflexivity.
  - vm_compute. discriminate.
Defined.

Lemma list_stream_outcomes_witness :
  (exists msg, classify_severity ascii_isdecimal list_valued_stream
               = Raise (TypeError msg))
  /\ r_severity_stage
       (analyze_file ascii_isdecimal sample_path (Loaded list_valued_stream))
     = ProcessingError
  /\ r_component (analyze_file ascii_isdecimal sample_path (Loaded list_valued_stream))
     = U "Error"
  /\ organize_file ascii_isdecimal initial_organize_state
       {| rel_path := U "op1/case_3.json";
          sf_loaded := Loaded list_valued_stream;
          copy_raises := None |}
     = initial_organize_state.
Proof.
  apply (list_stream_outcomes ascii_isdecimal list_valued_stream sample_path
           {| rel_path := U "op1/case_3.json";
              sf_loaded := Loaded list_valued_stream;
              copy_raises := None |}
           initial_organize_state).
  - exists [(U "du.stdout.log", StrList [U "line 1"; U "line 2"])],
           (U "du.stdout.log"), [U "line 1"; U "line 2"].
    split; [reflexivity|left; reflexivity].
  - reflexivity.
Defined.

Lemma short_ue_stream_never_repeated_witness :
  fired_rule ascii_isdecimal retries_on_one_line <> Return RepeatedConnectRule
  /\ forall v, classify_severity ascii_isdecimal retries_on_one_line = Return v ->
               ~ confidence v == 0.80.
Proof.
  apply (short_ue_stream_never_repeated ascii_isdecimal retries_on_one_line
           (connect_reports 12)).
  - vm_compute. reflexivity.
  - vm_compute. lia.
Defined.

(** Twelve refused connections in one line count once, and the bundle falls
    through to the uncertain case. *)
Example retries_on_one_line_count :
  connect_failure_count ascii_isdecimal (connect_reports 12) = 1%nat
  /\ fired_rule ascii_isdecimal retries_on_one_line = Return UncertainRule.
Proof. split; vm_compute; reflexivity. Qed.

(** The report of the sample files: the crash and the lone success are
    kept, the unreadable file and the list-valued bundle are left out. *)
Example organize_sample_files :
  map (fun r => (o_source_file r, o_severity_stage r, o_destination_folder r))
      (os_results (classify_and_organize ascii_isdecimal sample_files))
  = [(U "op1/case_1.json", 1%Z, U "severity_1_crash");
     (U "op1/case_4.json", 0%Z, U "severity_0_no_error")]
  /\ os_file_counts (classify_and_organize ascii_isdecimal sample_files)
     = [(0%Z, 1%nat); (1%Z, 1%nat); (2%Z, 0%nat); (3%Z, 0%nat)]
  /\ map r_severity_stage
         (fst (analyze_directory ascii_isdecimal (U "op1") sample_entries))
     = [1; -1; -1; 0]%Z.
Proof. repeat split; vm_compute; reflexivity. Qed.
